(** * cvpy.biomedimage.BiomedImage: request construction and bookkeeping

    A shallow embedding of [src/cvpy/biomedimage/BiomedImage.py].  The class
    is a client of a CAS session: every method is a straight line of session
    calls, each of which may raise, followed (for [mask_image]) by attribute
    assignments on a caller-owned [ImageTable] object.

    The embedding keeps
    - the session calls as data ([Request]), with the keyword arguments of
      each call as a record;
    - the f-strings as lists of literal and interpolated pieces;
    - Python's exceptions as a [Raise] result that skips the rest of the
      method;
    - the caller's objects in a store addressed by references, so that the
      in-place update of [mask] is an update of the store. *)

From Stdlib Require Import ZArith String Ascii List Floats.PrimFloat.
From stdpp Require Import base functions strings list.
Import ListNotations.

(** ** Python values *)

(** [swat.CASTable]: only the table name is read by this module. *)
Record CASTable := { name : string }.

(** Modelled from the spec: [cvpy.base.ImageTable.ImageTable] is imported by
    the source but not part of it.  The spec describes it as "a named remote
    table plus column-name metadata (which column holds image bytes,
    dimension vector, resolution, format, and an identifier column)".  An
    attribute holds a column name or [None]. *)
Record ImageTable := {
  table : CASTable;
  image : option string;
  dimension : option string;
  resolution : option string;
  imageFormat : option string;
  id_column : option string
}.

(** Modelled from the spec: [cvpy.biomedimage.LabelConnectivity] is an
    enumeration with the members FACE and VERTEX; the source reads the
    member's [.name]. *)
Inductive LabelConnectivity := FACE | VERTEX.

Definition LabelConnectivity_name (c : LabelConnectivity) : string :=
  match c with FACE => "FACE" | VERTEX => "VERTEX" end.

Inductive Exn :=
| AttributeError (attr : string)   (* 'NoneType' object has no attribute ... *)
| SWATError (message : string).    (* whatever the session layer raises *)

(** ** Session requests *)

(** [dict(quantityparameters=dict(quantitytype=..., useSpacing=...))];
    [useSpacing] is [None] when the key is absent. *)
Record Quantity := { quantitytype : string; useSpacing : option bool }.

Record LabelParameters := { labelType : string; connectivity : string }.

(** Keyword arguments of [biomedimage.quantifybiomedimages]. *)
Record QuantifyArgs := {
  q_images : CASTable;              (* images=dict(table=...) *)
  q_copyvars : list string;
  q_region : string;
  q_quantities : list Quantity;
  q_labelparameters : LabelParameters;
  q_inputbackground : float;
  q_casout : string                 (* casout=dict(name=...) *)
}.

(** One entry of [alter_columns]: [dict(name=..., rename=...)]. *)
Record ColumnDirective := { column : option string; rename : string }.

(** [binary_operation_dict]; a key the dict does not have is [None]. *)
Record BinaryOperation := {
  binaryoperationtype : string;
  bo_image : string;
  bo_dimension : option string;
  bo_resolution : option string;
  bo_imageformat : option string;
  outputBackground : Z;
  inputBackground : Z
}.

(** [dict(stepparameters=dict(steptype=..., binaryoperation=...))]. *)
Record Step := { steptype : string; binaryoperation : BinaryOperation }.

(** Keyword arguments of [biomedimage.processbiomedimages]. *)
Record ProcessArgs := {
  p_images : CASTable;              (* images=dict(table=...) *)
  p_steps : list Step;
  p_decode : bool;
  p_addcolumns : option (list string);
  p_casout : CASTable;
  p_copyvars : option (list string)
}.

(** [table.dropTable] is called once with [name='quantify'] and once with a
    table object as its positional argument. *)
Inductive TableArg :=
| ByName (n : string)
| ByTable (t : CASTable).

Definition TableArg_name (a : TableArg) : string :=
  match a with ByName n => n | ByTable t => name t end.

Inductive Request :=
| loadactionset (actionset : string)
| quantifybiomedimages (args : QuantifyArgs)
| execdirect (query : string)
| dropTable (target : TableArg)
| altertable (tbl : CASTable) (columns : list ColumnDirective)
| processbiomedimages (args : ProcessArgs).

(** ** The world: what the session has seen, and the caller's objects *)

Definition ref := nat.

Inductive Attr := Attr_image | Attr_dimension | Attr_resolution | Attr_imageFormat.

(** What a method does, in program order.  A request is logged with its
    outcome ([None]: it returned; [Some e]: it raised [e]).
    [conn.CASTable(name)] builds a client-side table handle and sends
    nothing.  An attribute assignment on an [ImageTable] object is logged
    next to the update of the store. *)
Inductive Event :=
| Remote (r : Request) (raised : option Exn)
| NewCASTable (n : string)
| SetAttr (obj : ref) (a : Attr) (value : string).

(** A session (or a session stub): it decides from everything that happened
    before whether the next request raises. *)
Record CAS := { raises : list Event → Request → option Exn }.

Record World := { log : list Event; heap : ref → ImageTable }.

Definition set_attr (a : Attr) (v : string) (t : ImageTable) : ImageTable :=
  match a with
  | Attr_image =>
      {| table := table t; image := Some v; dimension := dimension t;
         resolution := resolution t; imageFormat := imageFormat t;
         id_column := id_column t |}
  | Attr_dimension =>
      {| table := table t; image := image t; dimension := Some v;
         resolution := resolution t; imageFormat := imageFormat t;
         id_column := id_column t |}
  | Attr_resolution =>
      {| table := table t; image := image t; dimension := dimension t;
         resolution := Some v; imageFormat := imageFormat t;
         id_column := id_column t |}
  | Attr_imageFormat =>
      {| table := table t; image := image t; dimension := dimension t;
         resolution := resolution t; imageFormat := Some v;
         id_column := id_column t |}
  end.

(** ** Methods as state transformers that may raise *)

Inductive Result (A : Type) :=
| Return (a : A)
| Raise (e : Exn).
Arguments Return {A} a.
Arguments Raise {A} e.

Definition Py (A : Type) : Type := World → Result A * World.

#[global] Instance Py_ret : MRet Py := λ A a w, (Return a, w).

#[global] Instance Py_bind : MBind Py := λ A B f m w,
  match m w with
  | (Return a, w') => f a w'
  | (Raise e, w') => (Raise e, w')
  end.

Definition raise {A} (e : Exn) : Py A := λ w, (Raise e, w).

Definition emit (ev : Event) (w : World) : World :=
  {| log := log w ++ [ev]; heap := heap w |}.

(** [conn.<attr>...(request)]: looking [attr] up on [None] raises before
    anything is sent; otherwise the request is sent and the session decides. *)
Definition call (conn : option CAS) (attr : string) (r : Request) : Py () :=
  match conn with
  | None => raise (AttributeError attr)
  | Some c => λ w,
      match raises c (log w) r with
      | None => (Return (), emit (Remote r None) w)
      | Some e => (Raise e, emit (Remote r (Some e)) w)
      end
  end.

(** [conn.CASTable(n)] *)
Definition new_CASTable (conn : option CAS) (n : string) : Py CASTable :=
  match conn with
  | None => raise (AttributeError "CASTable")
  | Some _ => λ w, (Return {| name := n |}, emit (NewCASTable n) w)
  end.

(** [obj.attr] for an [ImageTable] *)
Definition deref (o : ref) : Py ImageTable := λ w, (Return (heap w o), w).

(** [obj.attr = v] *)
Definition setattr (o : ref) (a : Attr) (v : string) : Py () := λ w,
  (Return (),
   {| log := log w ++ [SetAttr o a v]; heap := alter (set_attr a v) o (heap w) |}).

(** ** f-strings *)

(** An f-string is a sequence of literal text and formatted values; its
    value is their concatenation. *)
Inductive piece :=
| Lit (s : string)
| Interp (s : string).

Definition piece_text (p : piece) : string :=
  match p with Lit s => s | Interp s => s end.

Definition fstring (ps : list piece) : string :=
  fold_right (λ p acc, piece_text p +:+ acc) ""%string ps.

Definition nl : string := String (ascii_of_nat 10) EmptyString.

Fixpoint spaces (n : nat) : string :=
  match n with O => EmptyString | S n' => String " "%char (spaces n') end.

(** ** class BiomedImage *)

Record BiomedImage := { _cas_session : option CAS }.

Definition __init__ (cas_session : option CAS) : Py BiomedImage :=
  let self := {| _cas_session := cas_session |} in
  call (_cas_session self) "loadactionset" (loadactionset "image");;
  call (_cas_session self) "loadactionset" (loadactionset "biomedimage");;
  call (_cas_session self) "loadactionset" (loadactionset "fedsql");;
  mret self.

(** The [cas_session] property and its setter. *)
Definition cas_session (self : BiomedImage) : option CAS := _cas_session self.

Definition set_cas_session (self : BiomedImage) (s : option CAS) : BiomedImage :=
  {| _cas_session := s |}.

(** The f-string passed to [fedsql.execdirect] in [quantify_sphericity]. *)
Definition sphericity_sql (out_name : string) : list piece :=
  [ Lit (nl +:+ spaces 12 +:+ "create table ");
    Interp out_name;
    Lit (" as " +:+ nl +:+ spaces 12 +:+
         "select _path_,_perimeter_,_content_, (power(pi(), 1.0/3.0) * power(6*_content_, 2.0/3.0))/_perimeter_ as "
         +:+ nl +:+ spaces 12 +:+ "sphericity from quantify" +:+ nl +:+ spaces 12) ].

Definition quantify_args (t : CASTable) (use_spacing : bool)
    (input_background : float) (label_connectivity : LabelConnectivity) : QuantifyArgs :=
  {| q_images := t;
     q_copyvars := ["_path_"%string];
     q_region := "COMPONENT";
     q_quantities :=
       [ {| quantitytype := "perimeter"; useSpacing := None |};
         {| quantitytype := "content"; useSpacing := Some use_spacing |} ];
     q_labelparameters :=
       {| labelType := "basic";
          connectivity := LabelConnectivity_name label_connectivity |};
     q_inputbackground := input_background;
     q_casout := "quantify" |}.

Definition quantify_sphericity (self : BiomedImage) (image_table : ref)
    (use_spacing : bool) (input_background : float)
    (label_connectivity : LabelConnectivity) (sphericity : CASTable) : Py () :=
  let conn := _cas_session self in
  (* Quantify the volume and perimeter of the given component. *)
  it ← deref image_table;
  call conn "biomedimage"
    (quantifybiomedimages
       (quantify_args (table it) use_spacing input_background label_connectivity));;
  (* Compute sphericity based on perimeter and volume of the lesion *)
  call conn "fedsql" (execdirect (fstring (sphericity_sql (name sphericity))));;
  (* Delete the quantify table *)
  call conn "table" (dropTable (ByName "quantify")).

Section mask_image.

(** [ImageTable.has_decoded_images] is defined with [ImageTable], outside
    the source; [mask_image] only branches on what it returns. *)
Variable has_decoded_images : ImageTable → bool.

(** [alter_columns] of the two branches. *)
Definition alter_columns_decoded (m : ImageTable) : list ColumnDirective :=
  [ {| column := image m; rename := "seg" |};
    {| column := dimension m; rename := "dim" |};
    {| column := resolution m; rename := "res" |};
    {| column := imageFormat m; rename := "form" |} ].

Definition alter_columns_encoded (m : ImageTable) : list ColumnDirective :=
  [ {| column := image m; rename := "seg" |} ].

(** [fed_sql_str] of the two branches. *)
Definition join_sql_decoded (mask_name image_name : string) : list piece :=
  [ Lit ("create table _images_to_mask_ as " +:+ nl +:+ spaces 16 +:+
         "select a.seg, a.dim, a.res, a.form, b.* " +:+ nl +:+ spaces 16 +:+
         "from ");
    Interp mask_name;
    Lit " as a inner join ";
    Interp image_name;
    Lit (" as b " +:+ nl +:+ spaces 16 +:+ "on a._id_=b._id_") ].

Definition join_sql_encoded (mask_name image_name : string) : list piece :=
  [ Lit ("create table _images_to_mask_ as " +:+ nl +:+ spaces 16 +:+
         "select a.seg, b.* " +:+ nl +:+ spaces 16 +:+
         "from ");
    Interp mask_name;
    Lit " as a inner join ";
    Interp image_name;
    Lit (" as b " +:+ nl +:+ spaces 16 +:+ "on a._id_=b._id_") ].

(** [binary_operation_dict] of the two branches. *)
Definition binary_operation_decoded (output_background input_background : Z)
    : BinaryOperation :=
  {| binaryoperationtype := "mask_specific";
     bo_image := "seg";
     bo_dimension := Some "dim"%string;
     bo_resolution := Some "res"%string;
     bo_imageformat := Some "form"%string;
     outputBackground := output_background;
     inputBackground := input_background |}.

Definition binary_operation_encoded (output_background input_background : Z)
    : BinaryOperation :=
  {| binaryoperationtype := "mask_specific";
     bo_image := "seg";
     bo_dimension := None;
     bo_resolution := None;
     bo_imageformat := None;
     outputBackground := output_background;
     inputBackground := input_background |}.

(** The two closures named [rename_columns]; both capture [mask]. *)
Definition rename_columns_decoded (mask : ref) : Py () :=
  setattr mask Attr_image "seg";;
  setattr mask Attr_dimension "dim";;
  setattr mask Attr_resolution "res";;
  setattr mask Attr_imageFormat "form".

Definition rename_columns_encoded (mask : ref) : Py () :=
  setattr mask Attr_image "seg".

Definition process_args (images : CASTable) (binary_operation_dict : BinaryOperation)
    (decode : bool) (add_columns : option (list string)) (casout : CASTable)
    (copy_vars : option (list string)) : ProcessArgs :=
  {| p_images := images;
     p_steps := [ {| steptype := "binary_operation";
                     binaryoperation := binary_operation_dict |} ];
     p_decode := decode;
     p_addcolumns := add_columns;
     p_casout := casout;
     p_copyvars := copy_vars |}.

(** [mask_image]; the keyword defaults ([input_background=0],
    [decode=False], [output_background=0], [add_columns=None],
    [copy_vars=None]) are the caller's to fill in. *)
Definition mask_image (self : BiomedImage) (image mask : ref) (casout : CASTable)
    (input_background : Z) (decode : bool) (output_background : Z)
    (add_columns copy_vars : option (list string)) : Py () :=
  let conn := _cas_session self in
  m ← deref mask;
  im ← deref image;
  let '(alter_columns, fed_sql_str, binary_operation_dict, rename_columns) :=
    if has_decoded_images m then
      (alter_columns_decoded m,
       fstring (join_sql_decoded (name (table m)) (name (table im))),
       binary_operation_decoded output_background input_background,
       rename_columns_decoded mask)
    else
      (alter_columns_encoded m,
       fstring (join_sql_encoded (name (table m)) (name (table im))),
       binary_operation_encoded output_background input_background,
       rename_columns_encoded mask) in
  (* Change column names so that we can merge tables *)
  m' ← deref mask;
  call conn "table" (altertable (table m') alter_columns);;
  (* Create Images to Mask Table *)
  _images_to_mask_ ← new_CASTable conn "_images_to_mask_";
  (* SQL Statement to join tables *)
  call conn "fedsql" (execdirect fed_sql_str);;
  (* Masking step *)
  call conn "biomedimage"
    (processbiomedimages
       (process_args _images_to_mask_ binary_operation_dict decode add_columns
          casout copy_vars));;
  (* Delete our temporary table *)
  call conn "table" (dropTable (ByTable _images_to_mask_));;
  (* Change column names in the ImageTable *)
  rename_columns.

End mask_image.

(** ** Reading the SQL text

    The statements are sent as text.  To state what a statement creates,
    selects and joins, the text is read back: a lexer for the characters the
    statements use and a recursive-descent parser for
    [create table T as select ITEMS from T [as A] [inner join T [as A] on E = E]].
    An interpolated value stands where a table name is expected and is kept
    as one token. *)

Module SQL.

Inductive keyword := CREATE | TABLE | AS | SELECT | FROM | INNER | JOIN | ON.

Inductive token :=
| TKw (k : keyword)
| TWord (s : string)
| TNum (s : string)
| TLParen | TRParen | TComma | TStar | TSlash | TDot | TEq
| TOther (c : ascii)
| TInterp (s : string).

Definition is_space (c : ascii) : bool :=
  let n := nat_of_ascii c in
  Nat.eqb n 32 || Nat.eqb n 10 || Nat.eqb n 9 || Nat.eqb n 13.

Definition is_digit (c : ascii) : bool :=
  let n := nat_of_ascii c in Nat.leb 48 n && Nat.leb n 57.

Definition is_letter (c : ascii) : bool :=
  let n := nat_of_ascii c in
  (Nat.leb 65 n && Nat.leb n 90) || (Nat.leb 97 n && Nat.leb n 122) || Nat.eqb n 95.

Definition is_dot (c : ascii) : bool := Nat.eqb (nat_of_ascii c) 46.

Definition keyword_of (s : string) : option keyword :=
  if String.eqb s "create" then Some CREATE
  else if String.eqb s "table" then Some TABLE
  else if String.eqb s "as" then Some AS
  else if String.eqb s "select" then Some SELECT
  else if String.eqb s "from" then Some FROM
  else if String.eqb s "inner" then Some INNER
  else if String.eqb s "join" then Some JOIN
  else if String.eqb s "on" then Some ON
  else None.

Definition word (s : string) : token :=
  match keyword_of s with Some k => TKw k | None => TWord s end.

Definition symbol (c : ascii) : token :=
  let n := nat_of_ascii c in
  if Nat.eqb n 40 then TLParen
  else if Nat.eqb n 41 then TRParen
  else if Nat.eqb n 44 then TComma
  else if Nat.eqb n 42 then TStar
  else if Nat.eqb n 47 then TSlash
  else if Nat.eqb n 46 then TDot
  else if Nat.eqb n 61 then TEq
  else TOther c.

(** What the lexer is in the middle of. *)
Inductive mode :=
| Idle
| InWord (acc : string)
| InNum (acc : string).

Definition flush (m : mode) : list token :=
  match m with
  | Idle => []
  | InWord acc => [word acc]
  | InNum acc => [TNum acc]
  end.

Definition snoc (acc : string) (c : ascii) : string :=
  acc +:+ String c EmptyString.

Fixpoint lex_from (m : mode) (s : string) : list token :=
  match s with
  | EmptyString => flush m
  | String c rest =>
      if is_space c then flush m ++ lex_from Idle rest
      else
        match m with
        | InWord acc =>
            if is_letter c || is_digit c then lex_from (InWord (snoc acc c)) rest
            else flush m ++ symbol c :: lex_from Idle rest
        | InNum acc =>
            if is_digit c || is_dot c then lex_from (InNum (snoc acc c)) rest
            else if is_letter c then flush m ++ lex_from (InWord (snoc "" c)) rest
            else flush m ++ symbol c :: lex_from Idle rest
        | Idle =>
            if is_digit c then lex_from (InNum (snoc "" c)) rest
            else if is_letter c then lex_from (InWord (snoc "" c)) rest
            else symbol c :: lex_from Idle rest
        end
  end.

Definition lex (s : string) : list token := lex_from Idle s.

(** Tokens of an f-string: the literal pieces are lexed, a formatted value
    is one token. *)
Definition tokens_of (ps : list piece) : list token :=
  flat_map (λ p, match p with Lit s => lex s | Interp s => [TInterp s] end) ps.

#[local] Set Warnings "-register-all".
Inductive expr :=
| ENum (literal : string)
| ECol (c : string)
| EQual (t c : string)                 (* t.c *)
| ECall (f : string) (args : list expr)
| EMul (a b : expr)
| EDiv (a b : expr).

Inductive select_item :=
| Item (e : expr) (alias : option string)   (* e [as alias] *)
| AllOf (t : string).                       (* t.* *)

Inductive table_name :=
| Named (s : string)       (* written in the statement *)
| Spliced (s : string).    (* interpolated by the caller *)

Record table_ref := { source : table_name; ref_alias : option string }.

Record join := { joined : table_ref; on_left : expr; on_right : expr }.

Record query := {
  items : list select_item;
  from_table : table_ref;
  inner_join : option join
}.

Record create_table_as := { target : table_name; body : query }.

Abbreviation parsed A := (option (A * list token)).

Fixpoint parse_expr (fuel : nat) (ts : list token) : parsed expr :=
  match fuel with
  | O => None
  | S fuel =>
      '(a, ts) ← parse_atom fuel ts;
      parse_ops fuel a ts
  end
with parse_atom (fuel : nat) (ts : list token) : parsed expr :=
  match fuel with
  | O => None
  | S fuel =>
      match ts with
      | TNum s :: ts => Some (ENum s, ts)
      | TLParen :: ts =>
          '(e, ts) ← parse_expr fuel ts;
          match ts with TRParen :: ts => Some (e, ts) | _ => None end
      | TWord f :: TLParen :: TRParen :: ts => Some (ECall f [], ts)
      | TWord f :: TLParen :: ts =>
          '(args, ts) ← parse_args fuel ts;
          Some (ECall f args, ts)
      | TWord t :: TDot :: TWord c :: ts => Some (EQual t c, ts)
      | TWord c :: ts => Some (ECol c, ts)
      | _ => None
      end
  end
with parse_ops (fuel : nat) (lhs : expr) (ts : list token) : parsed expr :=
  match fuel with
  | O => None
  | S fuel =>
      match ts with
      | TStar :: ts =>
          '(b, ts) ← parse_atom fuel ts;
          parse_ops fuel (EMul lhs b) ts
      | TSlash :: ts =>
          '(b, ts) ← parse_atom fuel ts;
          parse_ops fuel (EDiv lhs b) ts
      | _ => Some (lhs, ts)
      end
  end
with parse_args (fuel : nat) (ts : list token) : parsed (list expr) :=
  match fuel with
  | O => None
  | S fuel =>
      '(e, ts) ← parse_expr fuel ts;
      match ts with
      | TComma :: ts =>
          '(es, ts) ← parse_args fuel ts;
          Some (e :: es, ts)
      | TRParen :: ts => Some ([e], ts)
      | _ => None
      end
  end.

Definition parse_item (fuel : nat) (ts : list token) : parsed select_item :=
  match ts with
  | TWord t :: TDot :: TStar :: ts => Some (AllOf t, ts)
  | _ =>
      '(e, ts) ← parse_expr fuel ts;
      match ts with
      | TKw AS :: TWord a :: ts => Some (Item e (Some a), ts)
      | _ => Some (Item e None, ts)
      end
  end.

Fixpoint parse_items (fuel : nat) (ts : list token) : parsed (list select_item) :=
  match fuel with
  | O => None
  | S fuel =>
      '(i, ts) ← parse_item fuel ts;
      match ts with
      | TComma :: ts =>
          '(rest, ts) ← parse_items fuel ts;
          Some (i :: rest, ts)
      | _ => Some ([i], ts)
      end
  end.

Definition parse_table_name (ts : list token) : parsed table_name :=
  match ts with
  | TWord s :: ts => Some (Named s, ts)
  | TInterp s :: ts => Some (Spliced s, ts)
  | _ => None
  end.

Definition parse_table_ref (ts : list token) : parsed table_ref :=
  '(t, ts) ← parse_table_name ts;
  match ts with
  | TKw AS :: TWord a :: ts => Some ({| source := t; ref_alias := Some a |}, ts)
  | _ => Some ({| source := t; ref_alias := None |}, ts)
  end.

Definition parse_join (fuel : nat) (ts : list token) : parsed (option join) :=
  match ts with
  | TKw INNER :: TKw JOIN :: ts =>
      '(u, ts) ← parse_table_ref ts;
      match ts with
      | TKw ON :: ts =>
          '(l, ts) ← parse_expr fuel ts;
          match ts with
          | TEq :: ts =>
              '(r, ts) ← parse_expr fuel ts;
              Some (Some {| joined := u; on_left := l; on_right := r |}, ts)
          | _ => None
          end
      | _ => None
      end
  | _ => Some (None, ts)
  end.

Definition parse_query (fuel : nat) (ts : list token) : parsed query :=
  match ts with
  | TKw SELECT :: ts =>
      '(sel, ts) ← parse_items fuel ts;
      match ts with
      | TKw FROM :: ts =>
          '(t, ts) ← parse_table_ref ts;
          '(j, ts) ← parse_join fuel ts;
          Some ({| items := sel; from_table := t; inner_join := j |}, ts)
      | _ => None
      end
  | _ => None
  end.

(** A whole statement: nothing may follow the query. *)
Definition parse_create (fuel : nat) (ts : list token) : option create_table_as :=
  match ts with
  | TKw CREATE :: TKw TABLE :: ts =>
      '(t, ts) ← parse_table_name ts;
      match ts with
      | TKw AS :: ts =>
          '(q, ts) ← parse_query fuel ts;
          match ts with
          | [] => Some {| target := t; body := q |}
          | _ => None
          end
      | _ => None
      end
  | _ => None
  end.

Definition parse (ts : list token) : option create_table_as :=
  parse_create (2 * length ts) ts.

(** Plain identifiers, and the white space around a spliced name. *)

Definition word_char (c : ascii) : bool := is_letter c || is_digit c.

Fixpoint all_word_chars (s : string) : bool :=
  match s with
  | EmptyString => true
  | String c rest => word_char c && all_word_chars rest
  end.

(** A name that can stand unquoted in a statement. *)
Definition identifier (s : string) : bool :=
  match s with
  | EmptyString => false
  | String c rest =>
      is_letter c && all_word_chars rest
      && match keyword_of s with None => true | Some _ => false end
  end.

(** The text is empty or begins with white space. *)
Definition opens_with_space (s : string) : bool :=
  match s with EmptyString => true | String c _ => is_space c end.

Fixpoint ends_with_space (s : string) : bool :=
  match s with
  | EmptyString => false
  | String c EmptyString => is_space c
  | String _ rest => ends_with_space rest
  end.

End SQL.

(** ** Observing a run *)

(** The events a run added to the log. *)
Definition issued (w w' : World) : list Event := drop (length (log w)) (log w').


(** [q] has [n] as a substring. *)
Definition mentions (q n : string) : Prop := ∃ pre post, q = pre +:+ n +:+ post.

(** *** Straight-line runs

    Every method is a fixed sequence of steps: requests, which the session
    may answer by raising, and local steps, which cannot fail.  [ran] says
    what such a sequence leaves in the log and how it ends: the first
    request to raise ends the run. *)

Inductive step :=
| Send (r : Request)
| Handle (n : string)                        (* conn.CASTable(n) *)
| Assign (obj : ref) (a : Attr) (v : string). (* obj.a = v *)

(** What a step logs when it does not raise. *)
Definition logged (s : step) : Event :=
  match s with
  | Send r => Remote r None
  | Handle n => NewCASTable n
  | Assign o a v => SetAttr o a v
  end.

Definition local (s : step) : Prop :=
  match s with Send _ => False | _ => True end.

Inductive ran : list step → Result () → list Event → Prop :=
| ran_done : ran [] (Return ()) []
| ran_raise r rest e : ran (Send r :: rest) (Raise e) [Remote r (Some e)]
| ran_send r rest res evs :
    ran rest res evs → ran (Send r :: rest) res (Remote r None :: evs)
| ran_local s rest res evs :
    local s → ran rest res evs → ran (s :: rest) res (logged s :: evs).

(** *** The steps of [mask_image] *)

Definition images_to_mask : CASTable := {| name := "_images_to_mask_" |}.

(** The steps of [mask_image] for a mask object [m], an image object [im]
    and the answer [d] of [mask.has_decoded_images()]. *)
Definition mask_image_steps (d : bool) (m im : ImageTable) (mask : ref)
    (casout : CASTable) (input_background : Z) (decode : bool)
    (output_background : Z) (add_columns copy_vars : option (list string))
    : list step :=
  [ Send (altertable (table m)
            (if d then alter_columns_decoded m else alter_columns_encoded m));
    Handle "_images_to_mask_";
    Send (execdirect
            (fstring ((if d then join_sql_decoded else join_sql_encoded)
                        (name (table m)) (name (table im)))));
    Send (processbiomedimages
            (process_args images_to_mask
               ((if d then binary_operation_decoded else binary_operation_encoded)
                  output_background input_background)
               decode add_columns casout copy_vars));
    Send (dropTable (ByTable images_to_mask)) ]
  ++ (if d then
        [ Assign mask Attr_image "seg"; Assign mask Attr_dimension "dim";
          Assign mask Attr_resolution "res"; Assign mask Attr_imageFormat "form" ]
      else [ Assign mask Attr_image "seg" ]).

(** The mask object once [rename_columns] has run. *)
Definition renamed (d : bool) (m : ImageTable) : ImageTable :=
  if d then
    {| table := table m; image := Some "seg"%string; dimension := Some "dim"%string;
       resolution := Some "res"%string; imageFormat := Some "form"%string;
       id_column := id_column m |}
  else
    {| table := table m; image := Some "seg"%string; dimension := dimension m;
       resolution := resolution m; imageFormat := imageFormat m;
       id_column := id_column m |}.

(** ** What the statements say, in the spec's words *)

Import SQL.

(** From the spec: "creating the caller-named output table as a projection
    of _path_, _perimeter_, _content_, and a derived column
    sphericity = (pi^(1/3) * (6*content)^(2/3)) / perimeter", read from the
    table quantify. *)
Definition sphericity_statement (out : table_name) : create_table_as :=
  {| target := out;
     body :=
       {| items :=
            [ Item (ECol "_path_") None;
              Item (ECol "_perimeter_") None;
              Item (ECol "_content_") None;
              Item
                (EDiv
                   (EMul
                      (ECall "power"
                         [ECall "pi" []; EDiv (ENum "1.0") (ENum "3.0")])
                      (ECall "power"
                         [EMul (ENum "6") (ECol "_content_");
                          EDiv (ENum "2.0") (ENum "3.0")]))
                   (ECol "_perimeter_"))
                (Some "sphericity"%string) ];
          from_table := {| source := Named "quantify"; ref_alias := None |};
          inner_join := None |} |}.

(** From the spec: the join creates [_images_to_mask_] from the renamed mask
    columns and all columns of the image table; the claim adds that both
    sides are joined on the column [_id_]. *)
Definition join_statement (decoded : bool) (mask_table image_table : table_name)
    : create_table_as :=
  {| target := Named "_images_to_mask_";
     body :=
       {| items :=
            if decoded then
              [ Item (EQual "a" "seg") None; Item (EQual "a" "dim") None;
                Item (EQual "a" "res") None; Item (EQual "a" "form") None;
                AllOf "b" ]
            else [ Item (EQual "a" "seg") None; AllOf "b" ];
          from_table := {| source := mask_table; ref_alias := Some "a"%string |};
          inner_join :=
            Some {| joined := {| source := image_table; ref_alias := Some "b"%string |};
                    on_left := EQual "a" "_id_";
                    on_right := EQual "b" "_id_" |} |} |}.

(** ** A concrete session and concrete tables *)

Module Example.

(** A session stub on which every request returns. *)
Definition quiet : CAS := {| raises := λ _ _, None |}.

(** A session stub on which every SQL statement raises. *)
Definition no_sql : CAS :=
  {| raises := λ _ r,
       match r with
       | execdirect _ => Some (SWATError "fedsql failed")
       | _ => None
       end |}.

Definition scans : ImageTable :=
  {| table := {| name := "scans" |};
     image := Some "_image_"%string; dimension := Some "_dimension_"%string;
     resolution := Some "_resolution_"%string;
     imageFormat := Some "_imageFormat_"%string;
     id_column := Some "_id_"%string |}.

Definition masks : ImageTable :=
  {| table := {| name := "masks" |};
     image := Some "_image_"%string; dimension := Some "_dimension_"%string;
     resolution := Some "_resolution_"%string;
     imageFormat := Some "_imageFormat_"%string;
     id_column := Some "patient"%string |}.

Definition encoded_masks : ImageTable :=
  {| table := {| name := "masks" |};
     image := Some "_image_"%string; dimension := None; resolution := None;
     imageFormat := None; id_column := None |}.

(** Object 0 is the image table, 1 a decoded mask table, the others an
    encoded mask table. *)
Definition start : World :=
  {| log := [];
     heap := λ o, match o with 0 => scans | 1 => masks | _ => encoded_masks end |}.

(** One possible [has_decoded_images]: the three geometry columns are set. *)
Definition has_geometry (t : ImageTable) : bool :=
  match dimension t, resolution t, imageFormat t with
  | Some _, Some _, Some _ => true
  | _, _, _ => false
  end.

Definition biomed : BiomedImage := {| _cas_session := Some quiet |}.
Definition biomed_no_sql : BiomedImage := {| _cas_session := Some no_sql |}.


Definition masked : CASTable := {| name := "masked" |}.

(** A decoded mask (object 1) on a session where everything returns. *)
Definition decoded_run : Result () * World :=
  mask_image has_geometry biomed 0 1 masked 0 false 0 None None start.

(** An encoded mask (object 2) on the same session. *)
Definition encoded_run : Result () * World :=
  mask_image has_geometry biomed 0 2 masked 0 false 0 None None start.

(** A decoded mask on a session whose SQL action raises. *)
Definition failed_run : Result () * World :=
  mask_image has_geometry biomed_no_sql 0 1 masked 0 false 0 None None start.

Definition failed_join : Request :=
  execdirect (fstring (join_sql_decoded "masks" "scans")).

End Example.

(** ** Further observations on a run *)

(** The first request that raises ends the run: it is logged last, nothing
    before it raised, and the run raises what it raised. *)
Definition stops_at_first_error {A : Type} (res : Result A) (evs : list Event)
    : Prop :=
  ∀ r e, In (Remote r (Some e)) evs →
    res = Raise e
    ∧ ∃ before, evs = before ++ [Remote r (Some e)]
                ∧ ∀ r' e', ¬ In (Remote r' (Some e')) before.

(** No request of the run raised. *)
Definition no_error (evs : list Event) : Prop :=
  ∀ r e, ¬ In (Remote r (Some e)) evs.

(** The requests of a run, in order, without their outcomes. *)
Definition requests (evs : list Event) : list Request :=
  flat_map (λ ev, match ev with Remote r _ => [r] | _ => [] end) evs.

(** The column in which [quantify_sphericity]'s statement looks for a
    quantity: [_perimeter_] for perimeter, [_content_] for content. *)
Definition quantity_column (q : Quantity) : string :=
  "_" +:+ quantitytype q +:+ "_".

(** The columns an expression reads. *)
Fixpoint expr_columns (e : expr) : list string :=
  match e with
  | ENum _ => []
  | ECol c => [c]
  | EQual _ c => [c]
  | ECall _ args => flat_map expr_columns args
  | EMul a b => expr_columns a ++ expr_columns b
  | EDiv a b => expr_columns a ++ expr_columns b
  end.

(** The columns the select list of a statement reads. *)
Definition read_columns (s : create_table_as) : list string :=
  flat_map (λ i, match i with Item e _ => expr_columns e | AllOf _ => [] end)
    (items (body s)).

(** The columns the select list takes from the table with alias [a], other
    than by [a.*]. *)
Definition columns_from (a : string) (s : create_table_as) : list string :=
  flat_map
    (λ i, match i with
          | Item (EQual t c) _ => if String.eqb t a then [c] else []
          | _ => []
          end)
    (items (body s)).

(** The columns a [binary_operation_dict] names. *)
Definition operation_columns (b : BinaryOperation) : list string :=
  bo_image b :: option_list (bo_dimension b) ++ option_list (bo_resolution b)
    ++ option_list (bo_imageformat b).

(** A directive that renames a column to the name it has. *)
Definition identity_rename (d : ColumnDirective) : Prop :=
  column d = Some (rename d).

Module Scenario.
Import Example.

(** A session stub on which every drop raises. *)
Definition no_drop : CAS :=
  {| raises := λ _ r,
       match r with
       | dropTable _ => Some (SWATError "drop failed")
       | _ => None
       end |}.

Definition biomed_no_drop : BiomedImage := {| _cas_session := Some no_drop |}.

(** Masking succeeds on the server, the drop of the temporary table raises. *)
Definition drop_failed_run : Result () * World :=
  mask_image has_geometry biomed_no_drop 0 1 masked 0 false 0 None None start.

(** [mask_image] once more on the mask that [decoded_run] has renamed. *)
Definition second_run : Result () * World :=
  mask_image has_geometry biomed 0 1 {| name := "masked_again" |} 5 true 7
    (Some ["_path_"%string]) None decoded_run.2.

(** The mask object passed as the image as well. *)
Definition same_object_run : Result () * World :=
  mask_image has_geometry biomed 1 1 masked 0 false 0 None None start.

Definition sphericity_run : Result () * World :=
  quantify_sphericity biomed 0 true 0%float VERTEX {| name := "sphericity_out" |}
    start.

Definition failed_sphericity_run : Result () * World :=
  quantify_sphericity biomed_no_sql 0 true 0%float VERTEX
    {| name := "sphericity_out" |} start.

End Scenario.

(** * Proofs *)

(** ** The log and the text *)

Lemma issued_app w w' l : log w' = log w ++ l → issued w w' = l.
Proof. unfold issued. intros ->. apply drop_app_length. Qed.

Lemma issued_refl w : issued w w = [].
Proof. apply issued_app. by rewrite app_nil_r. Qed.

Lemma issued_mk w l h : issued w {| log := log w ++ l; heap := h |} = l.
Proof. by apply issued_app. Qed.

Lemma append_cons (x : ascii) (a b : string) : String x a +:+ b = String x (a +:+ b).
Proof. reflexivity. Qed.

Lemma append_assoc (a b c : string) : (a +:+ b) +:+ c = a +:+ (b +:+ c).
Proof.
  induction a as [|x a IH]; [reflexivity|].
  by rewrite !append_cons, IH.
Qed.

(** Stepping through a method: name the session's answer to each request. *)
Ltac session_answers :=
  repeat match goal with
  | |- context [raises ?c ?l ?r] =>
      let o := fresh "o" in
      destruct (raises c l r) as [o|]; simpl
  end.

Ltac run_method :=
  unfold mbind, mret, Py_bind, Py_ret, call, raise, new_CASTable, deref, setattr,
    emit; simpl.

Ltac read_log :=
  simpl; repeat rewrite <- app_assoc; simpl;
  first [ rewrite issued_refl | rewrite issued_mk | idtac ].

(** ** Straight-line runs *)

#[local] Hint Constructors ran : core.

Lemma ran_Return steps evs : ran steps (Return ()) evs → evs = map logged steps.
Proof.
  remember (Return ()) as res eqn:Hres.
  induction 1 as [| | r rest res evs _ IH | s rest res evs _ _ IH]; simpl.
  - done.
  - done.
  - f_equal. auto.
  - f_equal. auto.
Qed.

(** A request that raised is the last event of the run, and the run ends
    with what it raised. *)
Lemma ran_raised steps res evs r e :
  ran steps res evs → In (Remote r (Some e)) evs →
  res = Raise e ∧ ∃ pre post,
    steps = pre ++ Send r :: post ∧ evs = map logged pre ++ [Remote r (Some e)].
Proof.
  induction 1 as [| r' rest e' | r' rest res evs _ IH | s rest res evs Hs _ IH];
    simpl.
  - done.
  - intros [[= -> ->]|[]]. split; [done|]. by exists [], rest.
  - intros [[=]|Hin]. destruct (IH Hin) as (-> & pre & post & -> & ->).
    split; [done|]. by exists (Send r' :: pre), post.
  - intros [Heq|Hin].
    + destruct s; [done | discriminate Heq | discriminate Heq].
    + destruct (IH Hin) as (-> & pre & post & -> & ->).
      split; [done|]. by exists (s :: pre), post.
Qed.

(** A run that raises logs nothing after the request that raised. *)
Lemma ran_Raise steps e evs :
  ran steps (Raise e) evs →
  ∃ pre r post,
    steps = pre ++ Send r :: post ∧ evs = map logged pre ++ [Remote r (Some e)].
Proof.
  remember (Raise e) as res eqn:Hres.
  induction 1 as [| r rest e' | r rest res evs _ IH | s rest res evs _ _ IH].
  - done.
  - injection Hres as ->. by exists [], r, rest.
  - destruct (IH Hres) as (pre & r' & post & -> & ->).
    by exists (Send r :: pre), r', post.
  - destruct (IH Hres) as (pre & r' & post & -> & ->).
    by exists (s :: pre), r', post.
Qed.

(** Case analysis of a run of a known sequence of steps. *)
Ltac ran_cases :=
  repeat match goal with
  | H' : ran (_ :: _) _ _ |- _ => inversion H' as [ | | | ]; clear H'; subst
  | H' : ran [] _ _ |- _ => inversion H'; clear H'; subst
  | H' : local (Send _) |- _ => destruct H'
  end.

(** *** [__init__] *)

Lemma init_ran (c : CAS) (w : World) :
  let run := __init__ (Some c) w in
  ran [Send (loadactionset "image"); Send (loadactionset "biomedimage");
       Send (loadactionset "fedsql")]
      (match run.1 with Return _ => Return () | Raise e => Raise e end)
      (issued w run.2)
  ∧ (∀ o, heap run.2 o = heap w o)
  ∧ (∀ b, run.1 = Return b → b = {| _cas_session := Some c |}).
Proof.
  unfold __init__. run_method. session_answers; read_log; (split; [|split]);
    solve [ auto | intros b [= <-]; reflexivity | discriminate ].
Qed.

(** *** [quantify_sphericity] *)

Lemma quantify_sphericity_ran (c : CAS) (image_table : ref) (use_spacing : bool)
    (input_background : float) (lc : LabelConnectivity) (sphericity : CASTable)
    (w : World) :
  let run := quantify_sphericity {| _cas_session := Some c |} image_table
               use_spacing input_background lc sphericity w in
  ran [Send (quantifybiomedimages
               (quantify_args (table (heap w image_table)) use_spacing
                  input_background lc));
       Send (execdirect (fstring (sphericity_sql (name sphericity))));
       Send (dropTable (ByName "quantify"))]
      run.1 (issued w run.2)
  ∧ (∀ o, heap run.2 o = heap w o).
Proof.
  unfold quantify_sphericity. run_method. session_answers; read_log; (split; [|done]);
    auto.
Qed.

Lemma no_session_quantify_sphericity (image_table : ref) (use_spacing : bool)
    (input_background : float) (lc : LabelConnectivity) (sphericity : CASTable)
    (w : World) :
  quantify_sphericity {| _cas_session := None |} image_table use_spacing
    input_background lc sphericity w = (Raise (AttributeError "biomedimage"), w).
Proof. reflexivity. Qed.

(** *** [mask_image] *)

Section mask_image_run.

Variable has_decoded_images : ImageTable → bool.
Variables (c : CAS) (image mask : ref) (casout : CASTable).
Variables (input_background : Z) (decode : bool) (output_background : Z).
Variables (add_columns copy_vars : option (list string)).
Variable w : World.

Lemma mask_image_ran :
  let run := mask_image has_decoded_images {| _cas_session := Some c |} image mask
               casout input_background decode output_background add_columns
               copy_vars w in
  let m := heap w mask in
  let d := has_decoded_images m in
  ran (mask_image_steps d m (heap w image) mask casout input_background decode
         output_background add_columns copy_vars)
      run.1 (issued w run.2)
  ∧ (∀ o, o ≠ mask → heap run.2 o = heap w o)
  ∧ (run.1 = Return () → heap run.2 mask = renamed d m)
  ∧ (∀ e, run.1 = Raise e → ∀ o, heap run.2 o = heap w o).
Proof.
  unfold mask_image, mask_image_steps, rename_columns_decoded,
    rename_columns_encoded, renamed, images_to_mask.
  run_method.
  destruct (has_decoded_images (heap w mask)); simpl; session_answers; read_log.
  all: split; [repeat constructor|].
  all: split; [intros x Hx; rewrite ?fn_lookup_alter_ne by done; done|].
  all: split; [try discriminate; intros _; by rewrite !fn_lookup_alter|].
  all: try done.
  all: discriminate.
Qed.

End mask_image_run.

Lemma no_session_mask_image has_decoded_images (image mask : ref) (casout : CASTable)
    (input_background : Z) (decode : bool) (output_background : Z)
    (add_columns copy_vars : option (list string)) (w : World) :
  mask_image has_decoded_images {| _cas_session := None |} image mask casout
    input_background decode output_background add_columns copy_vars w
  = (Raise (AttributeError "table"), w).
Proof.
  unfold mask_image. run_method. by destruct (has_decoded_images (heap w mask)).
Qed.

(** *** Lexing a statement with a name spliced in

    A formatted value that is a plain identifier, standing between white
    space, lexes to one word: the text of the statement and its pieces then
    have the same tokens. *)

Module SQLFacts.
Import SQL.

Lemma word_char_not_space c : word_char c = true → is_space c = false.
Proof. destruct c as [[] [] [] [] [] [] [] []]; vm_compute; congruence. Qed.

Lemma letter_not_digit c : is_letter c = true → is_digit c = false.
Proof. destruct c as [[] [] [] [] [] [] [] []]; vm_compute; congruence. Qed.

Lemma append_nil_r (s : string) : s +:+ "" = s.
Proof. induction s as [|c s IH]; [done|]. by rewrite append_cons, IH. Qed.

Lemma lex_from_step m c rest :
  lex_from m (String c rest) =
    if is_space c then flush m ++ lex_from Idle rest
    else
      match m with
      | InWord acc =>
          if is_letter c || is_digit c then lex_from (InWord (snoc acc c)) rest
          else flush m ++ symbol c :: lex_from Idle rest
      | InNum acc =>
          if is_digit c || is_dot c then lex_from (InNum (snoc acc c)) rest
          else if is_letter c then flush m ++ lex_from (InWord (snoc "" c)) rest
          else flush m ++ symbol c :: lex_from Idle rest
      | Idle =>
          if is_digit c then lex_from (InNum (snoc "" c)) rest
          else if is_letter c then lex_from (InWord (snoc "" c)) rest
          else symbol c :: lex_from Idle rest
      end.
Proof. reflexivity. Qed.

Lemma lex_from_word acc n b :
  all_word_chars n = true → opens_with_space b = true →
  lex_from (InWord acc) (n +:+ b) = word (acc +:+ n) :: lex_from Idle b.
Proof.
  intros Hn Hb. revert acc. induction n as [|x n IH]; intros acc.
  - rewrite append_nil_r. change ("" +:+ b) with b.
    destruct b as [|c b]; [done|]. simpl in Hb.
    rewrite !lex_from_step, Hb. done.
  - simpl in Hn. apply andb_prop in Hn as [Hx Hn].
    rewrite append_cons, lex_from_step, (word_char_not_space _ Hx).
    unfold word_char in Hx. rewrite Hx, (IH Hn). unfold snoc.
    by rewrite append_assoc.
Qed.

Lemma lex_identifier n b :
  identifier n = true → opens_with_space b = true →
  lex (n +:+ b) = TWord n :: lex b.
Proof.
  unfold lex, identifier. destruct n as [|x n]; [done|]. intros Hn Hb.
  apply andb_prop in Hn as [Hn Hkw]. apply andb_prop in Hn as [Hx Hn].
  rewrite append_cons, lex_from_step.
  assert (word_char x = true) as Hw by (unfold word_char; by rewrite Hx).
  rewrite (word_char_not_space _ Hw), (letter_not_digit _ Hx), Hx.
  rewrite (lex_from_word _ _ _ Hn Hb). unfold word, snoc.
  change (("" +:+ String x "") +:+ n) with (String x n).
  by destruct (keyword_of (String x n)).
Qed.

Lemma lex_from_closed m a s :
  ends_with_space a = true → lex_from m (a +:+ s) = lex_from m a ++ lex_from Idle s.
Proof.
  revert m. induction a as [|c a IH]; intros m Ha; [done|].
  destruct a as [|c' a].
  - simpl in Ha. change (String c "" +:+ s) with (String c s).
    rewrite !lex_from_step, Ha. simpl. by rewrite app_nil_r.
  - assert (ends_with_space (String c' a) = true) as Ha' by exact Ha.
    specialize (λ m, IH m Ha'). clear Ha Ha'.
    generalize dependent (String c' a). clear c' a. intros a IH.
    rewrite append_cons, (lex_from_step m c (a +:+ s)), (lex_from_step m c a).
    destruct (is_space c); [by rewrite IH, app_assoc|].
    destruct m; repeat match goal with |- context [if ?b then _ else _] =>
      destruct b end; rewrite IH; by rewrite <- ?app_assoc, <- ?app_comm_cons.
Qed.

(** Text, an identifier, text: the identifier is a word of its own. *)
Lemma lex_spliced a n b :
  ends_with_space a = true → identifier n = true → opens_with_space b = true →
  lex (a +:+ n +:+ b) = lex a ++ TWord n :: lex b.
Proof.
  intros Ha Hn Hb. unfold lex at 1. rewrite (lex_from_closed _ _ _ Ha).
  fold (lex a). f_equal. by apply lex_identifier.
Qed.

End SQLFacts.

Import SQLFacts.

Lemma parse_sphericity_pieces (n : string) :
  parse (tokens_of (sphericity_sql n)) = Some (sphericity_statement (Spliced n)).
Proof. vm_compute. reflexivity. Qed.

Lemma parse_sphericity_text (n : string) :
  identifier n = true →
  parse (lex (fstring (sphericity_sql n))) = Some (sphericity_statement (Named n)).
Proof.
  intros Hn. unfold sphericity_sql, fstring. simpl fold_right.
  rewrite (lex_spliced _ n); [|by vm_compute|done|by vm_compute].
  vm_compute. reflexivity.
Qed.

Lemma parse_join_pieces (d : bool) (mn im : string) :
  parse (tokens_of ((if d then join_sql_decoded else join_sql_encoded) mn im))
  = Some (join_statement d (Spliced mn) (Spliced im)).
Proof. destruct d; vm_compute; reflexivity. Qed.

Lemma parse_join_text (d : bool) (mn im : string) :
  identifier mn = true → identifier im = true →
  parse (lex (fstring ((if d then join_sql_decoded else join_sql_encoded) mn im)))
  = Some (join_statement d (Named mn) (Named im)).
Proof.
  intros Hm Hi.
  destruct d; unfold join_sql_decoded, join_sql_encoded, fstring; simpl fold_right.
  all: rewrite (lex_spliced _ mn); [|by vm_compute|done|by vm_compute].
  all: rewrite (lex_spliced _ im); [|by vm_compute|done|by vm_compute].
  all: vm_compute; reflexivity.
Qed.

(** The statements as the session receives them. *)
Example sphericity_sql_text :
  fstring (sphericity_sql "out") = "
            create table out as 
            select _path_,_perimeter_,_content_, (power(pi(), 1.0/3.0) * power(6*_content_, 2.0/3.0))/_perimeter_ as 
            sphericity from quantify
            "%string.
Proof. reflexivity. Qed.

Example join_sql_decoded_text :
  fstring (join_sql_decoded "masks" "scans") = "create table _images_to_mask_ as 
                select a.seg, a.dim, a.res, a.form, b.* 
                from masks as a inner join scans as b 
                on a._id_=b._id_"%string.
Proof. reflexivity. Qed.

Example join_sql_encoded_text :
  fstring (join_sql_encoded "masks" "scans") = "create table _images_to_mask_ as 
                select a.seg, b.* 
                from masks as a inner join scans as b 
                on a._id_=b._id_"%string.
Proof. reflexivity. Qed.

(** ** Properties of the methods *)

(** Name the result and the events of a run before a case analysis. *)
Ltac name_run :=
  cbv zeta in *;
  match goal with
  | H : ran _ (fst ?run) _ |- _ => destruct run as [? ?]
  end;
  unfold fst, snd in *;
  match goal with
  | H : ran _ _ (issued ?w ?w') |- _ =>
      let evs := fresh "evs" in
      set (evs := issued w w') in *; clearbody evs
  end.

(** Membership of an event in a known list of events. *)
Ltac in_cases :=
  simpl in *;
  repeat match goal with
  | H : _ ∨ _ |- _ => destruct H
  | H : False |- _ => destruct H
  | H : @eq Event _ ?x |- _ => is_var x; subst x
  | H : @eq Event _ _ |- _ => first [ discriminate H | injection H as ?; subst ]
  | H : @eq Request _ _ |- _ => first [ discriminate H | injection H as ?; subst ]
  | H : @eq (option Exn) _ _ |- _ =>
      first [ discriminate H | injection H as ?; subst ]
  end.

(** C1.  A call to [quantify_sphericity] on a session first sends the
    quantification, writing to [quantify]; as soon as that request returns,
    the call submits the SQL statement, and the statement is the text of
    the f-string for the caller's table name.  No other statement is ever
    submitted.  Read piece by piece, with the caller's name where a table
    name is expected, that f-string creates the caller-named table from
    exactly the columns [_path_], [_perimeter_], [_content_] and
    [(power(pi(), 1.0/3.0) * power(6*_content_, 2.0/3.0))/_perimeter_]
    named [sphericity], selected from the table [quantify].  When the
    caller's name is a plain identifier the submitted text itself reads the
    same way. *)
Theorem quantify_sphericity_statement (self : BiomedImage) (image_table : ref)
    (use_spacing : bool) (input_background : float) (lc : LabelConnectivity)
    (sphericity : CASTable) (w : World) :
  let run := quantify_sphericity self image_table use_spacing input_background lc
               sphericity w in
  let text := fstring (sphericity_sql (name sphericity)) in
  (∀ c, cas_session self = Some c →
     ∃ args o1,
       head (issued w run.2) = Some (Remote (quantifybiomedimages args) o1)
       ∧ q_casout args = "quantify"%string
       ∧ (o1 = None →
          ∃ o2, issued w run.2 !! 1 = Some (Remote (execdirect text) o2)))
  ∧ (∀ q o, In (Remote (execdirect q) o) (issued w run.2) → q = text)
  ∧ parse (tokens_of (sphericity_sql (name sphericity)))
    = Some (sphericity_statement (Spliced (name sphericity)))
  ∧ (identifier (name sphericity) = true →
     parse (lex text) = Some (sphericity_statement (Named (name sphericity)))).
Proof.
  cbv zeta. split; [|split; [|split]].
  - intros c' Hc. destruct self as [[c|]]; [|discriminate Hc].
    destruct (quantify_sphericity_ran c image_table use_spacing input_background
                lc sphericity w) as [Hran _].
    name_run. ran_cases; eexists _, _; (split; [reflexivity|]);
      (split; [reflexivity|]); intros Ho1; try discriminate Ho1;
      eexists; reflexivity.
  - intros q o Hin. destruct self as [[c|]].
    + destruct (quantify_sphericity_ran c image_table use_spacing input_background
                  lc sphericity w) as [Hran _].
      name_run. ran_cases; in_cases; reflexivity.
    + rewrite no_session_quantify_sphericity in Hin. simpl in Hin.
      rewrite issued_refl in Hin. destruct Hin.
  - apply parse_sphericity_pieces.
  - apply parse_sphericity_text.
Qed.

Lemma quantify_sphericity_statement_witness :
  let run := quantify_sphericity Example.biomed 0 false 0%float FACE
               {| name := "sphericity_out" |} Example.start in
  let text := fstring (sphericity_sql "sphericity_out") in
  (∃ o2, issued Example.start run.2 !! 1 = Some (Remote (execdirect text) o2))
  ∧ parse (lex text) = Some (sphericity_statement (Named "sphericity_out")).
Proof.
  destruct (quantify_sphericity_statement Example.biomed 0 false 0%float FACE
              {| name := "sphericity_out" |} Example.start)
    as (Hsent & _ & _ & Htext).
  split.
  - destruct (Hsent Example.quiet eq_refl) as (args & o1 & Hhead & _ & Hnext).
    apply Hnext. vm_compute in Hhead. congruence.
  - apply Htext. vm_compute. reflexivity.
Defined.

(** C2 (as amended).  A call to [quantify_sphericity] that completes has
    issued exactly three requests, in this order: the quantification action
    writing to the table [quantify], the SQL action whose statement has the
    caller's output table name in it, and a drop of the table [quantify].
    The drop names the caller's output table exactly when that table is
    itself named [quantify]. *)
Theorem quantify_sphericity_requests (self : BiomedImage) (image_table : ref)
    (use_spacing : bool) (input_background : float) (lc : LabelConnectivity)
    (sphericity : CASTable) (w w' : World) :
  quantify_sphericity self image_table use_spacing input_background lc sphericity w
    = (Return (), w') →
  ∃ args q,
    issued w w' =
      [ Remote (quantifybiomedimages args) None;
        Remote (execdirect q) None;
        Remote (dropTable (ByName "quantify")) None ]
    ∧ q_casout args = "quantify"%string
    ∧ mentions q (name sphericity)
    ∧ ((∃ t o, In (Remote (dropTable t) o) (issued w w')
               ∧ TableArg_name t = name sphericity)
       ↔ name sphericity = "quantify"%string).
Proof.
  intros Hrun. destruct self as [[c|]].
  - destruct (quantify_sphericity_ran c image_table use_spacing input_background
                lc sphericity w) as [Hran _].
    rewrite Hrun in Hran. cbv zeta in Hran. unfold fst, snd in Hran.
    apply ran_Return in Hran. simpl in Hran.
    eexists _, _. split; [exact Hran|]. split; [reflexivity|]. split.
    + eexists _, _. unfold fstring, sphericity_sql. simpl fold_right. reflexivity.
    + rewrite Hran. split.
      * intros (t & o & Hin & Hname). in_cases. by rewrite <- Hname.
      * intros Hq. exists (ByName "quantify"), None. split; [|done].
        simpl. auto.
  - rewrite no_session_quantify_sphericity in Hrun. discriminate Hrun.
Qed.

Lemma quantify_sphericity_requests_witness :
  ∃ w' args q,
    quantify_sphericity Example.biomed 0 true 0%float FACE
      {| name := "sphericity_out" |} Example.start = (Return (), w')
    ∧ issued Example.start w' =
        [ Remote (quantifybiomedimages args) None;
          Remote (execdirect q) None;
          Remote (dropTable (ByName "quantify")) None ]
    ∧ mentions q "sphericity_out".
Proof.
  eexists.
  assert (quantify_sphericity Example.biomed 0 true 0%float FACE
            {| name := "sphericity_out" |} Example.start = (Return (), _)) as Hrun
    by (vm_compute; reflexivity).
  destruct (quantify_sphericity_requests _ _ _ _ _ _ _ _ Hrun)
    as (args & q & Hlog & _ & Hq & _).
  exists args, q. split; [exact Hrun|]. split; [exact Hlog|exact Hq].
Defined.

(** C2 as stated fails: when the caller's output table is named [quantify],
    the call completes and its drop request names that table. *)
Lemma quantify_sphericity_drops_table_named_quantify :
  ¬ (∀ (self : BiomedImage) (image_table : ref) (use_spacing : bool)
       (input_background : float) (lc : LabelConnectivity)
       (sphericity : CASTable) (w w' : World),
       quantify_sphericity self image_table use_spacing input_background lc
         sphericity w = (Return (), w') →
       ∀ t o, In (Remote (dropTable t) o) (issued w w') →
              TableArg_name t ≠ name sphericity).
Proof.
  intros Hclaim.
  refine (Hclaim Example.biomed 0 true 0%float FACE {| name := "quantify" |}
            Example.start _ eq_refl (ByName "quantify") None _ eq_refl).
  vm_compute. right. right. left. reflexivity.
Qed.



(** C10.  Constructing the wrapper without a session raises: looking up
    [loadactionset] on [None] fails before anything is sent.  So whenever
    the construction returns a wrapper, it was given a session, which the
    wrapper holds. *)
Theorem init_without_session (w : World) :
  __init__ None w = (Raise (AttributeError "loadactionset"), w)
  ∧ ∀ (s : option CAS) (w0 w' : World) (b : BiomedImage),
      __init__ s w0 = (Return b, w') → ∃ c, s = Some c ∧ cas_session b = Some c.
Proof.
  split; [reflexivity|].
  intros [c|] w0 w' b Hrun.
  - exists c. split; [reflexivity|].
    destruct (init_ran c w0) as (_ & _ & Hb). cbv zeta in Hb.
    rewrite Hrun in Hb. by rewrite (Hb b eq_refl).
  - discriminate Hrun.
Qed.

Lemma init_without_session_witness :
  __init__ None Example.start = (Raise (AttributeError "loadactionset"), Example.start)
  ∧ ∃ c, Some Example.quiet = Some c ∧ cas_session Example.biomed = Some c.
Proof.
  split.
  - exact (proj1 (init_without_session Example.start)).
  - refine (proj2 (init_without_session Example.start) (Some Example.quiet)
              Example.start _ Example.biomed _).
    vm_compute. reflexivity.
Defined.

Section mask_image_claims.

Variable has_decoded_images : ImageTable → bool.
Variables (self : BiomedImage) (image_table mask : ref) (casout : CASTable).
Variables (input_background : Z) (decode : bool) (output_background : Z).
Variables (add_columns copy_vars : option (list string)).
Variable w : World.

Let run : Result () * World :=
  mask_image has_decoded_images self image_table mask casout input_background decode
    output_background add_columns copy_vars w.

(** Unfold one run of [mask_image] into the cases of [ran]. *)
Ltac mask_image_cases :=
  subst run; destruct self as [[c|]];
  [ destruct (mask_image_ran has_decoded_images c image_table mask casout
                input_background decode output_background add_columns
                copy_vars w) as (Hran & Hother & Hreturn & Hraise);
    unfold mask_image_steps in Hran;
    destruct (has_decoded_images (heap w mask)) eqn:Hdecoded;
    simpl app in Hran; name_run; ran_cases
  | rewrite no_session_mask_image in *; unfold fst, snd in *;
    rewrite ?issued_refl in * ].

(** Where a list of known events can be cut in two. *)
Ltac cut_cases :=
  repeat match goal with
  | H : _ :: _ = ?b ++ _ :: _ |- _ =>
      destruct b as [|? ?]; simpl in H;
      [ first [ discriminate H | injection H as ?; subst ]
      | injection H as ? H; subst ]
  | H : [] = ?b ++ _ :: _ |- _ => destruct b; discriminate H
  end.

(** C3.  A call to [mask_image] that completes has issued, in this order,
    the alter-table request, the join statement, the masking request and
    the drop of [_images_to_mask_], and only then assigned the mask
    object's attributes.  In every call, completed or not, an assignment
    to an attribute comes after a drop request that returned. *)
Theorem mask_image_order :
  (run.1 = Return () →
   ∃ columns args,
     issued w run.2 =
       [ Remote (altertable (table (heap w mask)) columns) None;
         NewCASTable "_images_to_mask_";
         Remote (execdirect
                   (fstring ((if has_decoded_images (heap w mask)
                              then join_sql_decoded else join_sql_encoded)
                               (name (table (heap w mask)))
                               (name (table (heap w image_table)))))) None;
         Remote (processbiomedimages args) None;
         Remote (dropTable (ByTable images_to_mask)) None ]
       ++ map (λ av, SetAttr mask av.1 av.2)
            (if has_decoded_images (heap w mask) then
               [ (Attr_image, "seg"); (Attr_dimension, "dim");
                 (Attr_resolution, "res"); (Attr_imageFormat, "form") ]%string
             else [ (Attr_image, "seg"%string) ])
     ∧ p_images args = images_to_mask)
  ∧ (∀ before o a v after,
       issued w run.2 = before ++ SetAttr o a v :: after →
       In (Remote (dropTable (ByTable images_to_mask)) None) before).
Proof.
  split.
  - intros Hret. mask_image_cases; try done;
      eexists _, _; (split; [reflexivity|reflexivity]).
  - intros before o a v after.
    mask_image_cases; intros Hcut; simpl in Hcut; cut_cases; simpl; auto 10.
Qed.

(** C4.  The alter-table request of [mask_image] names the mask table and
    carries four rename directives when [mask.has_decoded_images()] is true
    (image to seg, dimension to dim, resolution to res, imageFormat to form)
    and one when it is false (image to seg).  With a session, it is the
    first thing the call issues. *)
Theorem mask_image_alter_columns :
  let m := heap w mask in
  let expected :=
    if has_decoded_images m then
      [ {| column := image m; rename := "seg" |};
        {| column := dimension m; rename := "dim" |};
        {| column := resolution m; rename := "res" |};
        {| column := imageFormat m; rename := "form" |} ]
    else [ {| column := image m; rename := "seg" |} ] in
  (∀ tbl columns o,
     In (Remote (altertable tbl columns) o) (issued w run.2) →
     tbl = table m ∧ columns = expected
     ∧ length columns = if has_decoded_images m then 4 else 1)
  ∧ (∀ c, cas_session self = Some c →
       ∃ o, head (issued w run.2) = Some (Remote (altertable (table m) expected) o)).
Proof.
  cbv zeta. split.
  - intros tbl columns o Hin. mask_image_cases; in_cases; done.
  - intros c' Hc. mask_image_cases; try done; eexists; reflexivity.
Qed.

(** C5.  After a call to [mask_image] that completes, the mask object's
    attributes are the short names of the alter-table request: [image] is
    seg and, in the decoded branch, [dimension], [resolution] and
    [imageFormat] are dim, res and form; in the encoded branch these three
    keep the values they had. *)
Theorem mask_image_renames_mask :
  run.1 = Return () →
  let m := heap w mask in
  let m' := heap run.2 mask in
  image m' = Some "seg"%string
  ∧ (if has_decoded_images m then
       dimension m' = Some "dim"%string ∧ resolution m' = Some "res"%string
       ∧ imageFormat m' = Some "form"%string
     else
       dimension m' = dimension m ∧ resolution m' = resolution m
       ∧ imageFormat m' = imageFormat m)
  ∧ (∀ tbl columns o,
       In (Remote (altertable tbl columns) o) (issued w run.2) →
       map (λ d, Some (rename d)) columns =
         if has_decoded_images m then
           [image m'; dimension m'; resolution m'; imageFormat m']
         else [image m']).
Proof.
  intros Hret. cbv zeta. revert Hret.
  mask_image_cases; intros Hret; try done; rewrite (Hreturn eq_refl); simpl;
    (split; [done|]); (split; [done|]); intros tbl columns o Hin; in_cases; done.
Qed.

(** C6.  When the join statement raises in [mask_image], the call raises
    the same error, no masking request is issued, no attribute is assigned
    and the mask object (like every other object) is as it was on entry. *)
Theorem mask_image_join_raises (q : string) (e : Exn) :
  In (Remote (execdirect q) (Some e)) (issued w run.2) →
  run.1 = Raise e
  ∧ (∀ args o, ¬ In (Remote (processbiomedimages args) o) (issued w run.2))
  ∧ (∀ obj a v, ¬ In (SetAttr obj a v) (issued w run.2))
  ∧ heap run.2 mask = heap w mask
  ∧ (∀ obj, heap run.2 obj = heap w obj).
Proof.
  intros Hin.
  mask_image_cases; in_cases;
    (split; [done|]); (split; [intros ? ? ?; in_cases|]);
    (split; [intros ? ? ? ?; in_cases|]); (split; [|by eapply Hraise]);
    by eapply Hraise.
Qed.


(** C9.  A call to [mask_image] on a session first sends the alter-table
    request; as soon as that request returns, the call submits the join
    statement, in the decoded and in the encoded branch alike, and the
    statement is the text of the f-string of its branch for the two table
    names.  No other statement is ever submitted.  Read piece by piece,
    that f-string creates [_images_to_mask_] from the mask table as [a]
    inner-joined with the image table as [b] on [a._id_ = b._id_]: the
    column name [_id_] is written in the statement.  When both table names
    are plain identifiers the submitted text itself reads the same way.
    The statement depends on the two objects only through their table names
    and the branch taken: a call on any other store in which these agree,
    whatever the identifier columns or other attributes of the objects are,
    submits the same statement. *)
Theorem mask_image_join_on_id :
  let m := heap w mask in
  let im := heap w image_table in
  let d := has_decoded_images m in
  let pieces :=
    (if d then join_sql_decoded else join_sql_encoded)
      (name (table m)) (name (table im)) in
  let text := fstring pieces in
  (∀ c, cas_session self = Some c →
     ∃ columns o1,
       head (issued w run.2) = Some (Remote (altertable (table m) columns) o1)
       ∧ (o1 = None →
          ∃ o2, issued w run.2 !! 2 = Some (Remote (execdirect text) o2)))
  ∧ (∀ q o, In (Remote (execdirect q) o) (issued w run.2) → q = text)
  ∧ parse (tokens_of pieces)
    = Some (join_statement d (Spliced (name (table m))) (Spliced (name (table im))))
  ∧ (identifier (name (table m)) = true → identifier (name (table im)) = true →
     parse (lex text)
     = Some (join_statement d (Named (name (table m))) (Named (name (table im)))))
  ∧ (∀ (self2 : BiomedImage) (w2 : World) (q2 : string) (o2 : option Exn),
       table (heap w2 mask) = table m →
       table (heap w2 image_table) = table im →
       has_decoded_images (heap w2 mask) = d →
       In (Remote (execdirect q2) o2)
          (issued w2 (mask_image has_decoded_images self2 image_table mask casout
                        input_background decode output_background add_columns
                        copy_vars w2).2) →
       q2 = text).
Proof.
  assert (∀ (s : BiomedImage) (w1 : World) (q1 : string) (o1 : option Exn),
            In (Remote (execdirect q1) o1)
               (issued w1 (mask_image has_decoded_images s image_table mask casout
                             input_background decode output_background
                             add_columns copy_vars w1).2) →
            q1 = fstring ((if has_decoded_images (heap w1 mask)
                           then join_sql_decoded else join_sql_encoded)
                            (name (table (heap w1 mask)))
                            (name (table (heap w1 image_table))))) as Htext.
  { clear. intros s w1 q1 o1 Hin. destruct s as [[c|]].
    - destruct (mask_image_ran has_decoded_images c image_table mask casout
                  input_background decode output_background add_columns
                  copy_vars w1) as (Hran & _).
      unfold mask_image_steps in Hran.
      destruct (has_decoded_images (heap w1 mask)); simpl app in Hran; name_run;
        ran_cases; in_cases; reflexivity.
    - rewrite no_session_mask_image in Hin. simpl in Hin.
      rewrite issued_refl in Hin. destruct Hin. }
  cbv zeta. split; [|split; [|split; [|split]]].
  - intros c' Hc. mask_image_cases; try discriminate Hc;
      eexists _, _; (split; [reflexivity|]); intros Ho1; try discriminate Ho1;
      eexists; reflexivity.
  - intros q o Hin. subst run. exact (Htext _ _ _ _ Hin).
  - apply parse_join_pieces.
  - apply parse_join_text.
  - intros self2 w2 q2 o2 Hm Him Hd Hin2.
    rewrite (Htext _ _ _ _ Hin2). by rewrite Hm, Him, Hd.
Qed.

End mask_image_claims.



(** ** The properties on concrete calls *)

Module Witness.
Import Example.

Lemma decoded_run_returns : decoded_run.1 = Return ().
Proof. vm_compute. reflexivity. Qed.

Lemma encoded_run_returns : encoded_run.1 = Return ().
Proof. vm_compute. reflexivity. Qed.

Lemma failed_run_join_raised :
  In (Remote failed_join (Some (SWATError "fedsql failed")))
     (issued start failed_run.2).
Proof. vm_compute. right. right. left. reflexivity. Qed.

End Witness.

Lemma mask_image_order_witness :
  Example.decoded_run.1 = Return ()
  ∧ (∃ columns args,
       issued Example.start Example.decoded_run.2 =
         [ Remote (altertable {| name := "masks" |} columns) None;
           NewCASTable "_images_to_mask_";
           Remote (execdirect (fstring (join_sql_decoded "masks" "scans"))) None;
           Remote (processbiomedimages args) None;
           Remote (dropTable (ByTable images_to_mask)) None;
           SetAttr 1 Attr_image "seg"; SetAttr 1 Attr_dimension "dim";
           SetAttr 1 Attr_resolution "res"; SetAttr 1 Attr_imageFormat "form" ]
       ∧ p_images args = images_to_mask).
Proof.
  split; [exact Witness.decoded_run_returns|].
  exact (proj1 (mask_image_order Example.has_geometry Example.biomed 0 1
                  Example.masked 0 false 0 None None Example.start)
           Witness.decoded_run_returns).
Defined.

Lemma mask_image_alter_columns_witness :
  let columns :=
    [ {| column := Some "_image_"%string; rename := "seg" |};
      {| column := Some "_dimension_"%string; rename := "dim" |};
      {| column := Some "_resolution_"%string; rename := "res" |};
      {| column := Some "_imageFormat_"%string; rename := "form" |} ] in
  In (Remote (altertable {| name := "masks" |} columns) None)
     (issued Example.start Example.decoded_run.2)
  ∧ length columns = 4
  ∧ (∃ o, head (issued Example.start Example.encoded_run.2) =
            Some (Remote (altertable {| name := "masks" |}
                            [ {| column := Some "_image_"%string; rename := "seg" |} ])
                    o)).
Proof.
  assert (In (Remote (altertable {| name := "masks" |}
                [ {| column := Some "_image_"%string; rename := "seg" |};
                  {| column := Some "_dimension_"%string; rename := "dim" |};
                  {| column := Some "_resolution_"%string; rename := "res" |};
                  {| column := Some "_imageFormat_"%string; rename := "form" |} ])
                None)
            (issued Example.start Example.decoded_run.2)) as Hin.
  { vm_compute. left. reflexivity. }
  split; [exact Hin|]. split.
  - exact (proj2 (proj2 (proj1 (mask_image_alter_columns Example.has_geometry
                                  Example.biomed 0 1 Example.masked 0 false 0
                                  None None Example.start) _ _ _ Hin))).
  - exact (proj2 (mask_image_alter_columns Example.has_geometry Example.biomed 0 2
                    Example.masked 0 false 0 None None Example.start)
             Example.quiet eq_refl).
Defined.

Lemma mask_image_renames_mask_witness :
  Example.encoded_run.1 = Return ()
  ∧ image (heap Example.encoded_run.2 2) = Some "seg"%string
  ∧ dimension (heap Example.encoded_run.2 2) = None.
Proof.
  split; [exact Witness.encoded_run_returns|].
  destruct (mask_image_renames_mask Example.has_geometry Example.biomed 0 2
              Example.masked 0 false 0 None None Example.start
              Witness.encoded_run_returns) as (Himage & Hrest & _).
  split; [exact Himage|]. exact (proj1 Hrest).
Defined.

Lemma mask_image_join_raises_witness :
  In (Remote Example.failed_join (Some (SWATError "fedsql failed")))
     (issued Example.start Example.failed_run.2)
  ∧ Example.failed_run.1 = Raise (SWATError "fedsql failed")
  ∧ heap Example.failed_run.2 1 = Example.masks.
Proof.
  split; [exact Witness.failed_run_join_raised|].
  destruct (mask_image_join_raises Example.has_geometry Example.biomed_no_sql 0 1
              Example.masked 0 false 0 None None Example.start _ _
              Witness.failed_run_join_raised) as (Hraise & _ & _ & Hmask & _).
  split; [exact Hraise|exact Hmask].
Defined.


Lemma mask_image_join_on_id_witness :
  let decoded := fstring (join_sql_decoded "masks" "scans") in
  let encoded := fstring (join_sql_encoded "masks" "scans") in
  (∃ o2, issued Example.start Example.decoded_run.2 !! 2
         = Some (Remote (execdirect decoded) o2))
  ∧ parse (lex decoded) = Some (join_statement true (Named "masks") (Named "scans"))
  ∧ (∃ o2, issued Example.start Example.encoded_run.2 !! 2
           = Some (Remote (execdirect encoded) o2))
  ∧ parse (lex encoded) = Some (join_statement false (Named "masks") (Named "scans")).
Proof.
  destruct (mask_image_join_on_id Example.has_geometry Example.biomed 0 1
              Example.masked 0%Z false 0%Z None None Example.start)
    as (Hsent1 & _ & _ & Htext1 & _).
  destruct (mask_image_join_on_id Example.has_geometry Example.biomed 0 2
              Example.masked 0%Z false 0%Z None None Example.start)
    as (Hsent2 & _ & _ & Htext2 & _).
  split; [|split; [|split]].
  - destruct (Hsent1 Example.quiet eq_refl) as (columns & o1 & Hhead & Hnext).
    apply Hnext. vm_compute in Hhead. congruence.
  - apply Htext1; vm_compute; reflexivity.
  - destruct (Hsent2 Example.quiet eq_refl) as (columns & o1 & Hhead & Hnext).
    apply Hnext. vm_compute in Hhead. congruence.
  - apply Htext2; vm_compute; reflexivity.
Defined.

(** * Further properties of the methods *)

(** ** Errors *)

Lemma logged_not_raised (s : step) (r : Request) (e : Exn) :
  logged s ≠ Remote r (Some e).
Proof. by destruct s. Qed.

Lemma no_error_logged (steps : list step) : no_error (map logged steps).
Proof.
  intros r e Hin. apply in_map_iff in Hin as (s & Hs & _).
  by apply logged_not_raised in Hs.
Qed.

Lemma ran_stops (steps : list step) (res : Result ()) (evs : list Event) :
  ran steps res evs → stops_at_first_error res evs.
Proof.
  intros Hran r e Hin.
  destruct (ran_raised _ _ _ _ _ Hran Hin) as (-> & pre & post & -> & ->).
  split; [done|]. exists (map logged pre). split; [done|].
  apply no_error_logged.
Qed.

Lemma stops_at_first_error_nil {A : Type} (res : Result A) :
  stops_at_first_error res [].
Proof. intros r e []. Qed.

(** X1.  Each of [__init__], [quantify_sphericity] and [mask_image] stops at
    the first request that raises: that request is the last thing the call
    does, no earlier request of the call raised, and the call raises the
    very error of the request.  Nothing is retried and nothing is sent
    after an error. *)
Theorem methods_stop_at_first_error :
  (∀ (s : option CAS) (w : World),
     let run := __init__ s w in
     stops_at_first_error run.1 (issued w run.2))
  ∧ (∀ (self : BiomedImage) (image_table : ref) (use_spacing : bool)
       (input_background : float) (lc : LabelConnectivity)
       (sphericity : CASTable) (w : World),
       let run := quantify_sphericity self image_table use_spacing
                    input_background lc sphericity w in
       stops_at_first_error run.1 (issued w run.2))
  ∧ (∀ (has_decoded_images : ImageTable → bool) (self : BiomedImage)
       (image_table mask : ref) (casout : CASTable) (input_background : Z)
       (decode : bool) (output_background : Z)
       (add_columns copy_vars : option (list string)) (w : World),
       let run := mask_image has_decoded_images self image_table mask casout
                    input_background decode output_background add_columns
                    copy_vars w in
       stops_at_first_error run.1 (issued w run.2)).
Proof.
  split; [|split].
  - intros [c|] w run; subst run.
    + destruct (init_ran c w) as (Hran & _). cbv zeta in Hran.
      intros r e Hin. destruct (ran_stops _ _ _ Hran r e Hin) as [Hres Hlast].
      split; [|exact Hlast].
      revert Hres. destruct (__init__ (Some c) w).1; [discriminate|congruence].
    + change (__init__ None w) with
        (@Raise BiomedImage (AttributeError "loadactionset"), w).
      unfold snd. rewrite issued_refl. apply stops_at_first_error_nil.
  - intros [[c|]] image_table use_spacing input_background lc sphericity w run;
      subst run.
    + destruct (quantify_sphericity_ran c image_table use_spacing
                  input_background lc sphericity w) as [Hran _].
      by apply ran_stops in Hran.
    + rewrite no_session_quantify_sphericity. unfold snd. rewrite issued_refl.
      apply stops_at_first_error_nil.
  - intros has_decoded_images [[c|]] image_table mask casout input_background
      decode output_background add_columns copy_vars w run; subst run.
    + destruct (mask_image_ran has_decoded_images c image_table mask casout
                  input_background decode output_background add_columns
                  copy_vars w) as [Hran _].
      by apply ran_stops in Hran.
    + rewrite no_session_mask_image. unfold snd. rewrite issued_refl.
      apply stops_at_first_error_nil.
Qed.

Lemma methods_stop_at_first_error_witness :
  Example.failed_run.1 = Raise (SWATError "fedsql failed")
  ∧ ∃ before,
      issued Example.start Example.failed_run.2 =
        before ++ [Remote Example.failed_join (Some (SWATError "fedsql failed"))].
Proof.
  destruct (proj2 (proj2 methods_stop_at_first_error) Example.has_geometry
              Example.biomed_no_sql 0 1 Example.masked 0%Z false 0%Z None None
              Example.start _ _ Witness.failed_run_join_raised)
    as (Hres & before & Hlog & _).
  split; [exact Hres|]. exists before. exact Hlog.
Defined.

(** X3.  With the session set to [None] through the setter, both methods
    raise [AttributeError] on their first attribute lookup on the session
    ([biomedimage], respectively [table]): nothing is sent, nothing is
    logged and no object is changed, so the mask keeps its column names. *)
Theorem methods_without_session (b : BiomedImage) :
  let self := set_cas_session b None in
  (∀ (image_table : ref) (use_spacing : bool) (input_background : float)
     (lc : LabelConnectivity) (sphericity : CASTable) (w : World),
     quantify_sphericity self image_table use_spacing input_background lc
       sphericity w = (Raise (AttributeError "biomedimage"), w))
  ∧ (∀ (has_decoded_images : ImageTable → bool) (image_table mask : ref)
       (casout : CASTable) (input_background : Z) (decode : bool)
       (output_background : Z) (add_columns copy_vars : option (list string))
       (w : World),
       mask_image has_decoded_images self image_table mask casout
         input_background decode output_background add_columns copy_vars w
       = (Raise (AttributeError "table"), w)).
Proof.
  split.
  - intros. apply no_session_quantify_sphericity.
  - intros. apply no_session_mask_image.
Qed.

(** ** [quantify_sphericity] *)

(** X5.  [quantify_sphericity] changes no object of the caller, whatever
    its outcome: it assigns no attribute, builds no table handle, and the
    store after the call is the store before it. *)
Theorem quantify_sphericity_leaves_objects (self : BiomedImage) (image_table : ref)
    (use_spacing : bool) (input_background : float) (lc : LabelConnectivity)
    (sphericity : CASTable) (w : World) :
  let run := quantify_sphericity self image_table use_spacing input_background lc
               sphericity w in
  (∀ obj, heap run.2 obj = heap w obj)
  ∧ (∀ ev, In ev (issued w run.2) → ∃ r o, ev = Remote r o).
Proof.
  destruct self as [[c|]]; cbv zeta.
  - destruct (quantify_sphericity_ran c image_table use_spacing input_background
                lc sphericity w) as [Hran Hheap].
    split; [exact Hheap|]. name_run. intros ev Hin.
    ran_cases; in_cases; by eexists _, _.
  - rewrite no_session_quantify_sphericity. unfold snd. rewrite issued_refl.
    split; [done|]. intros ev [].
Qed.

(** X6.  In a call to [quantify_sphericity] that completes, the three
    requests agree on the temporary table: the statement selects, without
    a join, from the table the quantification wrote, and that table is the
    one dropped.  The columns the statement reads are the copied [_path_]
    and one column per requested quantity ([_perimeter_], [_content_]):
    every one it reads was asked for, and every one asked for is read. *)
Theorem quantify_sphericity_table_and_columns (self : BiomedImage)
    (image_table : ref) (use_spacing : bool) (input_background : float)
    (lc : LabelConnectivity) (sphericity : CASTable) (w w' : World) :
  quantify_sphericity self image_table use_spacing input_background lc sphericity w
    = (Return (), w') →
  ∃ args stmt target,
    issued w w' =
      [ Remote (quantifybiomedimages args) None;
        Remote (execdirect (fstring (sphericity_sql (name sphericity)))) None;
        Remote (dropTable target) None ]
    ∧ parse (tokens_of (sphericity_sql (name sphericity))) = Some stmt
    ∧ source (from_table (body stmt)) = Named (q_casout args)
    ∧ inner_join (body stmt) = None
    ∧ TableArg_name target = q_casout args
    ∧ (∀ c, In c (read_columns stmt)
            ↔ In c (q_copyvars args ++ map quantity_column (q_quantities args))).
Proof.
  intros Hrun. destruct self as [[c|]].
  - destruct (quantify_sphericity_ran c image_table use_spacing input_background
                lc sphericity w) as [Hran _].
    rewrite Hrun in Hran. cbv zeta in Hran. unfold fst, snd in Hran.
    apply ran_Return in Hran. simpl in Hran.
    eexists _, _, _. split; [exact Hran|].
    split; [apply parse_sphericity_pieces|].
    split; [reflexivity|]. split; [reflexivity|]. split; [reflexivity|].
    intros col.
    assert (read_columns (sphericity_statement (Spliced (name sphericity)))
            = ["_path_"; "_perimeter_"; "_content_"; "_content_"; "_perimeter_"]%string)
      as -> by reflexivity.
    assert (q_copyvars (quantify_args (table (heap w image_table)) use_spacing
                          input_background lc)
            ++ map quantity_column
                 (q_quantities (quantify_args (table (heap w image_table))
                                  use_spacing input_background lc))
            = ["_path_"; "_perimeter_"; "_content_"]%string)
      as -> by reflexivity.
    simpl. tauto.
  - rewrite no_session_quantify_sphericity in Hrun. discriminate Hrun.
Qed.

Lemma quantify_sphericity_table_and_columns_witness :
  ∃ args stmt target,
    issued Example.start Scenario.sphericity_run.2 =
      [ Remote (quantifybiomedimages args) None;
        Remote (execdirect (fstring (sphericity_sql "sphericity_out"))) None;
        Remote (dropTable target) None ]
    ∧ source (from_table (body stmt)) = Named (q_casout args)
    ∧ TableArg_name target = q_casout args.
Proof.
  assert (quantify_sphericity Example.biomed 0 true 0%float VERTEX
            {| name := "sphericity_out" |} Example.start
          = (Return (), Scenario.sphericity_run.2)) as Hrun
    by (vm_compute; reflexivity).
  destruct (quantify_sphericity_table_and_columns _ _ _ _ _ _ _ _ Hrun)
    as (args & stmt & target & Hlog & _ & Hfrom & _ & Hdrop & _).
  exists args, stmt, target. split; [exact Hlog|]. split; [exact Hfrom|exact Hdrop].
Defined.

(** ** The order of the requests *)

Lemma requests_cons (ev : Event) (evs : list Event) :
  requests (ev :: evs) = requests [ev] ++ requests evs.
Proof. unfold requests. simpl. by rewrite app_nil_r. Qed.

(** Whatever happens, the requests of a run are a beginning of the requests
    of the run in which nothing raises. *)
Lemma ran_requests_prefix (steps : list step) (res : Result ()) (evs : list Event) :
  ran steps res evs → ∃ rest, requests (map logged steps) = requests evs ++ rest.
Proof.
  induction 1 as [| r rest e | r rest res evs _ [k IH] | s rest res evs _ _ [k IH]].
  - by exists [].
  - exists (requests (map logged rest)). reflexivity.
  - exists k. rewrite map_cons, (requests_cons _ (map logged rest)), IH.
    rewrite (requests_cons _ evs). by rewrite app_assoc.
  - exists k. rewrite map_cons, (requests_cons _ (map logged rest)), IH.
    rewrite (requests_cons _ evs). by rewrite app_assoc.
Qed.

Lemma no_error_nil : no_error [].
Proof. intros r e []. Qed.

(** Whatever is logged before another event of a run is no request that
    raised. *)
Lemma ran_earlier_returned (steps : list step) (res : Result ()) (evs : list Event) :
  ran steps res evs →
  ∀ before ev after, evs = before ++ ev :: after → no_error before.
Proof.
  induction 1 as [| r rest e | r rest res evs _ IH | s rest res evs _ _ IH];
    intros before ev after Hcut.
  - destruct before; discriminate Hcut.
  - destruct before as [|x [|y before]]; [apply no_error_nil | |]; discriminate Hcut.
  - destruct before as [|x before]; [apply no_error_nil|].
    injection Hcut as <- Hcut. intros r' e' [Hhere|Hlater]; [discriminate Hhere|].
    exact (IH _ _ _ Hcut r' e' Hlater).
  - destruct before as [|x before]; [apply no_error_nil|].
    injection Hcut as <- Hcut. intros r' e' [Hhere|Hlater].
    + by apply logged_not_raised in Hhere.
    + exact (IH _ _ _ Hcut r' e' Hlater).
Qed.

(** X7.  The requests a call has sent, however it ends, are a beginning of
    one fixed sequence: for [quantify_sphericity] the quantification, the
    statement for the caller's table name, the drop of [quantify]; for
    [mask_image] the alter-table of its branch on the mask table, the join
    statement of its branch, the masking request on [_images_to_mask_]
    writing to [casout], the drop of [_images_to_mask_].  And whatever the
    call does, it does after every request it sent earlier has returned:
    no request logged before another event of the call raised.  So no
    request is sent out of turn, twice, or after an earlier one failed. *)
Theorem methods_send_a_prefix :
  (∀ (self : BiomedImage) (image_table : ref) (use_spacing : bool)
     (input_background : float) (lc : LabelConnectivity) (sphericity : CASTable)
     (w : World),
     let run := quantify_sphericity self image_table use_spacing input_background
                  lc sphericity w in
     (∃ rest,
        [ quantifybiomedimages
            (quantify_args (table (heap w image_table)) use_spacing
               input_background lc);
          execdirect (fstring (sphericity_sql (name sphericity)));
          dropTable (ByName "quantify") ]
        = requests (issued w run.2) ++ rest)
     ∧ (∀ before ev after,
          issued w run.2 = before ++ ev :: after → no_error before))
  ∧ (∀ (has_decoded_images : ImageTable → bool) (self : BiomedImage)
       (image_table mask : ref) (casout : CASTable) (input_background : Z)
       (decode : bool) (output_background : Z)
       (add_columns copy_vars : option (list string)) (w : World),
       let run := mask_image has_decoded_images self image_table mask casout
                    input_background decode output_background add_columns
                    copy_vars w in
       let m := heap w mask in
       let d := has_decoded_images m in
       (∃ rest,
          [ altertable (table m)
              (if d then alter_columns_decoded m else alter_columns_encoded m);
            execdirect
              (fstring ((if d then join_sql_decoded else join_sql_encoded)
                          (name (table m)) (name (table (heap w image_table)))));
            processbiomedimages
              (process_args images_to_mask
                 ((if d then binary_operation_decoded else binary_operation_encoded)
                    output_background input_background)
                 decode add_columns casout copy_vars);
            dropTable (ByTable images_to_mask) ]
          = requests (issued w run.2) ++ rest)
       ∧ (∀ before ev after,
            issued w run.2 = before ++ ev :: after → no_error before)).
Proof.
  split.
  - intros [[c|]] image_table use_spacing input_background lc sphericity w run;
      subst run.
    + destruct (quantify_sphericity_ran c image_table use_spacing
                  input_background lc sphericity w) as [Hran _].
      cbv zeta in Hran. split.
      * apply ran_requests_prefix in Hran as [rest Hrest].
        exists rest. exact Hrest.
      * exact (ran_earlier_returned _ _ _ Hran).
    + rewrite no_session_quantify_sphericity. unfold snd. rewrite issued_refl.
      split; [eexists; reflexivity|].
      intros before ev after Hcut. destruct before; discriminate Hcut.
  - intros has_decoded_images [[c|]] image_table mask casout input_background
      decode output_background add_columns copy_vars w run; subst run;
      cbv zeta.
    + destruct (mask_image_ran has_decoded_images c image_table mask casout
                  input_background decode output_background add_columns
                  copy_vars w) as [Hran _].
      cbv zeta in Hran. split.
      * apply ran_requests_prefix in Hran as [rest Hrest].
        exists rest. rewrite <- Hrest. unfold mask_image_steps.
        by destruct (has_decoded_images (heap w mask)).
      * exact (ran_earlier_returned _ _ _ Hran).
    + rewrite no_session_mask_image. unfold snd. rewrite issued_refl.
      split; [eexists; reflexivity|].
      intros before ev after Hcut. destruct before; discriminate Hcut.
Qed.

Lemma methods_send_a_prefix_witness :
  (∃ rest,
     [ altertable {| name := "masks" |} (alter_columns_decoded Example.masks);
       execdirect (fstring (join_sql_decoded "masks" "scans"));
       processbiomedimages
         (process_args images_to_mask (binary_operation_decoded 0 0) false None
            Example.masked None);
       dropTable (ByTable images_to_mask) ]
     = requests (issued Example.start Example.failed_run.2) ++ rest
     ∧ length rest = 2)
  ∧ no_error
      [ Remote (altertable {| name := "masks" |}
                  (alter_columns_decoded Example.masks)) None;
        NewCASTable "_images_to_mask_" ].
Proof.
  destruct (proj2 methods_send_a_prefix Example.has_geometry Example.biomed_no_sql
              0 1 Example.masked 0%Z false 0%Z None None Example.start)
    as [[rest Heq] Hearlier].
  split.
  - exists rest. split; [exact Heq|].
    assert (length (requests (issued Example.start Example.failed_run.2)) = 2)
      as Hsent by (vm_compute; reflexivity).
    unfold Example.failed_run in Hsent.
    apply (f_equal (@length Request)) in Heq. rewrite length_app, Hsent in Heq.
    simpl in Heq. by injection Heq as <-.
  - apply (Hearlier _ (Remote Example.failed_join (Some (SWATError "fedsql failed")))
             []).
    vm_compute. reflexivity.
Defined.

(** ** [mask_image] and the caller's objects *)

Section mask_image_objects.

Variable has_decoded_images : ImageTable → bool.
Variables (self : BiomedImage) (image_table mask : ref) (casout : CASTable).
Variables (input_background : Z) (decode : bool) (output_background : Z).
Variables (add_columns copy_vars : option (list string)).
Variable w : World.

Let run : Result () * World :=
  mask_image has_decoded_images self image_table mask casout input_background decode
    output_background add_columns copy_vars w.

(** The store after a call, whatever the session. *)
Lemma mask_image_store :
  (∀ obj, obj ≠ mask → heap run.2 obj = heap w obj)
  ∧ (run.1 = Return () →
     heap run.2 mask = renamed (has_decoded_images (heap w mask)) (heap w mask))
  ∧ (∀ e, run.1 = Raise e → ∀ obj, heap run.2 obj = heap w obj).
Proof.
  subst run. destruct self as [[c|]].
  - destruct (mask_image_ran has_decoded_images c image_table mask casout
                input_background decode output_background add_columns
                copy_vars w) as (_ & Hother & Hret & Hraise).
    auto.
  - rewrite no_session_mask_image. simpl. split; [done|]. split; [done|done].
Qed.

(** X8.  When a request of [mask_image] raises, whichever of the four it
    is, the call raises that error, no object of the caller has changed and
    no attribute was assigned.  This holds in particular when the
    alter-table request had already returned, and when only the final drop
    raised after the masking went through: the mask object then still
    carries the column names from before the call. *)
Theorem mask_image_request_failure_keeps_objects (r : Request) (e : Exn) :
  In (Remote r (Some e)) (issued w run.2) →
  run.1 = Raise e
  ∧ (∀ obj, heap run.2 obj = heap w obj)
  ∧ (∀ obj a v, ¬ In (SetAttr obj a v) (issued w run.2)).
Proof.
  subst run. destruct self as [[c|]].
  - destruct (mask_image_ran has_decoded_images c image_table mask casout
                input_background decode output_background add_columns
                copy_vars w) as (Hran & _ & _ & Hraise).
    unfold mask_image_steps in Hran.
    destruct (has_decoded_images (heap w mask)); simpl app in Hran; name_run;
      ran_cases; intros Hin; in_cases;
      (split; [done|]); (split; [by eapply Hraise|]); intros ? ? ? ?; in_cases.
  - rewrite no_session_mask_image. simpl. rewrite issued_refl. intros [].
Qed.

(** X9.  Whatever its outcome, [mask_image] changes no object other than
    [mask], and of [mask] it keeps the table and the identifier column. *)
Theorem mask_image_frame :
  (∀ obj, obj ≠ mask → heap run.2 obj = heap w obj)
  ∧ table (heap run.2 mask) = table (heap w mask)
  ∧ id_column (heap run.2 mask) = id_column (heap w mask).
Proof.
  destruct mask_image_store as (Hother & Hret & Hraise).
  split; [exact Hother|].
  destruct run.1 as [[]|e] eqn:Hres.
  - rewrite (Hret eq_refl). by destruct (has_decoded_images (heap w mask)).
  - by rewrite (Hraise e eq_refl mask).
Qed.

End mask_image_objects.

Lemma mask_image_request_failure_keeps_objects_witness :
  In (Remote (dropTable (ByTable images_to_mask)) (Some (SWATError "drop failed")))
     (issued Example.start Scenario.drop_failed_run.2)
  ∧ Scenario.drop_failed_run.1 = Raise (SWATError "drop failed")
  ∧ heap Scenario.drop_failed_run.2 1 = Example.masks
  ∧ ¬ In (SetAttr 1 Attr_image "seg") (issued Example.start Scenario.drop_failed_run.2).
Proof.
  assert (In (Remote (dropTable (ByTable images_to_mask))
                (Some (SWATError "drop failed")))
            (issued Example.start Scenario.drop_failed_run.2)) as Hin.
  { vm_compute. right. right. right. right. left. reflexivity. }
  split; [exact Hin|].
  destruct (mask_image_request_failure_keeps_objects Example.has_geometry
              Scenario.biomed_no_drop 0 1 Example.masked 0%Z false 0%Z None None
              Example.start _ _ Hin) as (Hres & Hheap & Hattr).
  split; [exact Hres|].
  split; [exact (Hheap 1)|exact (Hattr 1 Attr_image "seg"%string)].
Defined.

(** ** [mask_image]: what the requests share *)

Section mask_image_requests.

Variable has_decoded_images : ImageTable → bool.
Variables (self : BiomedImage) (image_table mask : ref) (casout : CASTable).
Variables (input_background : Z) (decode : bool) (output_background : Z).
Variables (add_columns copy_vars : option (list string)).
Variable w : World.

Let run : Result () * World :=
  mask_image has_decoded_images self image_table mask casout input_background decode
    output_background add_columns copy_vars w.

(** X10.  In a call to [mask_image] that completes, the four requests agree
    on the columns and on the temporary table.  The names the alter-table
    request renames the mask columns to are, in the same order, the columns
    the join statement selects from the mask table (alias [a]) and the
    columns the binary operation of the masking request names: four in the
    decoded branch, one in the encoded branch.  The table the join
    statement creates is the table the masking request reads and the table
    the drop names. *)
Theorem mask_image_columns_agree :
  run.1 = Return () →
  let m := heap w mask in
  let pieces :=
    (if has_decoded_images m then join_sql_decoded else join_sql_encoded)
      (name (table m)) (name (table (heap w image_table))) in
  ∃ columns stmt args op dropped,
    requests (issued w run.2) =
      [ altertable (table m) columns; execdirect (fstring pieces);
        processbiomedimages args; dropTable dropped ]
    ∧ parse (tokens_of pieces) = Some stmt
    ∧ p_steps args = [ {| steptype := "binary_operation"; binaryoperation := op |} ]
    ∧ from_table (body stmt)
      = {| source := Spliced (name (table m)); ref_alias := Some "a"%string |}
    ∧ map rename columns = columns_from "a" stmt
    ∧ operation_columns op = columns_from "a" stmt
    ∧ length columns = (if has_decoded_images m then 4 else 1)
    ∧ target stmt = Named (name (p_images args))
    ∧ TableArg_name dropped = name (p_images args).
Proof.
  intros Hres. cbv zeta. revert Hres. subst run. destruct self as [[c|]].
  - destruct (mask_image_ran has_decoded_images c image_table mask casout
                input_background decode output_background add_columns
                copy_vars w) as (Hran & _).
    cbv zeta in Hran. intros Hres. rewrite Hres in Hran.
    apply ran_Return in Hran. rewrite Hran. clear Hran Hres.
    unfold mask_image_steps.
    destruct (has_decoded_images (heap w mask)).
    + eexists _, _, _, _, _. split; [reflexivity|].
      split; [apply (parse_join_pieces true)|].
      repeat (split; [reflexivity|]). reflexivity.
    + eexists _, _, _, _, _. split; [reflexivity|].
      split; [apply (parse_join_pieces false)|].
      repeat (split; [reflexivity|]). reflexivity.
  - rewrite no_session_mask_image. discriminate.
Qed.

End mask_image_requests.

(** X11.  When the same object is passed as [image] and as [mask], a call
    that completes has joined that object's table with itself (once as [a],
    once as [b]) and has renamed that one object. *)
Theorem mask_image_same_object (has_decoded_images : ImageTable → bool)
    (self : BiomedImage) (obj : ref) (casout : CASTable) (input_background : Z)
    (decode : bool) (output_background : Z)
    (add_columns copy_vars : option (list string)) (w : World) :
  let same := mask_image has_decoded_images self obj obj casout input_background
                decode output_background add_columns copy_vars w in
  same.1 = Return () →
  let d := has_decoded_images (heap w obj) in
  let pieces :=
    (if d then join_sql_decoded else join_sql_encoded)
      (name (table (heap w obj))) (name (table (heap w obj))) in
  ∃ stmt j,
    In (Remote (execdirect (fstring pieces)) None) (issued w same.2)
    ∧ parse (tokens_of pieces) = Some stmt
    ∧ inner_join (body stmt) = Some j
    ∧ source (joined j) = source (from_table (body stmt))
    ∧ ref_alias (from_table (body stmt)) = Some "a"%string
    ∧ ref_alias (joined j) = Some "b"%string
    ∧ heap same.2 obj = renamed d (heap w obj).
Proof.
  cbv zeta. destruct self as [[c|]].
  - destruct (mask_image_ran has_decoded_images c obj obj casout
                input_background decode output_background add_columns
                copy_vars w) as (Hran & _ & Hret & _).
    cbv zeta in Hran, Hret. intros Hres. rewrite Hres in Hran.
    apply ran_Return in Hran. rewrite Hran, (Hret Hres). clear Hran Hret Hres.
    unfold mask_image_steps.
    destruct (has_decoded_images (heap w obj)).
    + eexists _, _. split; [simpl; auto|].
      split; [apply (parse_join_pieces true)|].
      repeat (split; [reflexivity|]). reflexivity.
    + eexists _, _. split; [simpl; auto|].
      split; [apply (parse_join_pieces false)|].
      repeat (split; [reflexivity|]). reflexivity.
  - rewrite no_session_mask_image. discriminate.
Qed.

(** ** [mask_image] twice on one mask *)

Lemma mask_image_alter_request (has_decoded_images : ImageTable → bool)
    (self : BiomedImage) (image_table mask : ref) (casout : CASTable)
    (input_background : Z) (decode : bool) (output_background : Z)
    (add_columns copy_vars : option (list string)) (w : World)
    (t : CASTable) (columns : list ColumnDirective) (o : option Exn) :
  In (Remote (altertable t columns) o)
     (issued w (mask_image has_decoded_images self image_table mask casout
                  input_background decode output_background add_columns
                  copy_vars w).2) →
  columns = if has_decoded_images (heap w mask)
            then alter_columns_decoded (heap w mask)
            else alter_columns_encoded (heap w mask).
Proof.
  destruct self as [[c|]].
  - destruct (mask_image_ran has_decoded_images c image_table mask casout
                input_background decode output_background add_columns
                copy_vars w) as (Hran & _).
    unfold mask_image_steps in Hran.
    destruct (has_decoded_images (heap w mask)); simpl app in Hran; name_run;
      ran_cases; intros Hin; in_cases; reflexivity.
  - rewrite no_session_mask_image. simpl. rewrite issued_refl. intros [].
Qed.

Lemma renamed_again (d1 d2 : bool) (m : ImageTable) :
  d1 = true ∨ d2 = false → renamed d2 (renamed d1 m) = renamed d1 m.
Proof. destruct d1, d2; intros [?|?]; done. Qed.

Section mask_image_twice.

Variable has_decoded_images : ImageTable → bool.
Variables (self1 self2 : BiomedImage) (image1 image2 mask : ref).
Variables (casout1 casout2 : CASTable).
Variables (input_background1 input_background2 : Z) (decode1 decode2 : bool).
Variables (output_background1 output_background2 : Z).
Variables (add_columns1 add_columns2 copy_vars1 copy_vars2 : option (list string)).
Variable w : World.

Let first : Result () * World :=
  mask_image has_decoded_images self1 image1 mask casout1 input_background1 decode1
    output_background1 add_columns1 copy_vars1 w.

Let second : Result () * World :=
  mask_image has_decoded_images self2 image2 mask casout2 input_background2 decode2
    output_background2 add_columns2 copy_vars2 first.2.

(** X12.  After a call to [mask_image] that completed, a further call with
    the same mask object (and any other arguments) finds the mask already
    renamed.  Unless the first call took the encoded branch and the further
    one takes the decoded branch, every directive of the further
    alter-table request renames a column to the name it already has (seg to
    seg, and so on), and the further call leaves every object as the first
    call left it, whether it completes or raises. *)
Theorem mask_image_again :
  first.1 = Return () →
  has_decoded_images (heap w mask) = true
  ∨ has_decoded_images (heap first.2 mask) = false →
  (∀ t columns o,
     In (Remote (altertable t columns) o) (issued first.2 second.2) →
     columns ≠ [] ∧ Forall identity_rename columns)
  ∧ (∀ obj, heap second.2 obj = heap first.2 obj).
Proof.
  intros Hfirst Hbranch.
  destruct (mask_image_store has_decoded_images self1 image1 mask casout1
              input_background1 decode1 output_background1 add_columns1
              copy_vars1 w) as (_ & Hret1 & _).
  fold first in Hret1. specialize (Hret1 Hfirst).
  split.
  - intros t columns o Hin. subst second.
    apply mask_image_alter_request in Hin as ->. rewrite Hret1.
    destruct (has_decoded_images (heap w mask)) eqn:Hd1;
      destruct (has_decoded_images (heap first.2 mask)) eqn:Hd2.
    all: try (destruct Hbranch; discriminate).
    all: rewrite <- Hret1, Hd2; rewrite Hret1; split; [discriminate|].
    all: repeat constructor.
  - intros obj.
    destruct (mask_image_store has_decoded_images self2 image2 mask casout2
                input_background2 decode2 output_background2 add_columns2
                copy_vars2 first.2) as (Hother & Hret2 & Hraise2).
    fold second in Hother, Hret2, Hraise2.
    destruct second.1 as [[]|e] eqn:Hres.
    + destruct (decide (obj = mask)) as [->|Hne]; [|by apply Hother].
      rewrite (Hret2 eq_refl), Hret1. apply renamed_again.
      rewrite <- Hret1. exact Hbranch.
    + by apply (Hraise2 e).
Qed.

End mask_image_twice.

Lemma mask_image_again_witness :
  Example.decoded_run.1 = Return ()
  ∧ In (Remote (altertable {| name := "masks" |}
                  [ {| column := Some "seg"%string; rename := "seg" |};
                    {| column := Some "dim"%string; rename := "dim" |};
                    {| column := Some "res"%string; rename := "res" |};
                    {| column := Some "form"%string; rename := "form" |} ])
               None)
       (issued Example.decoded_run.2 Scenario.second_run.2)
  ∧ heap Scenario.second_run.2 1 = heap Example.decoded_run.2 1.
Proof.
  split; [exact Witness.decoded_run_returns|]. split.
  - vm_compute. left. reflexivity.
  - exact (proj2 (mask_image_again Example.has_geometry Example.biomed
                    Example.biomed 0 0 1 Example.masked
                    {| name := "masked_again" |} 0%Z 5%Z false true 0%Z 7%Z None
                    (Some ["_path_"%string]) None None Example.start
                    Witness.decoded_run_returns (or_introl eq_refl)) 1).
Defined.

(** ** The further properties on concrete calls *)

Lemma quantify_sphericity_leaves_objects_witness :
  heap Scenario.failed_sphericity_run.2 0 = Example.scans
  ∧ ∃ r o, Remote (execdirect (fstring (sphericity_sql "sphericity_out")))
             (Some (SWATError "fedsql failed")) = Remote r o.
Proof.
  destruct (quantify_sphericity_leaves_objects Example.biomed_no_sql 0 true
              0%float VERTEX {| name := "sphericity_out" |} Example.start)
    as [Hheap Hevents].
  split; [exact (Hheap 0)|].
  apply Hevents. vm_compute. right. left. reflexivity.
Defined.

Lemma mask_image_frame_witness :
  heap Example.decoded_run.2 0 = Example.scans
  ∧ table (heap Example.decoded_run.2 1) = {| name := "masks" |}
  ∧ id_column (heap Example.decoded_run.2 1) = Some "patient"%string.
Proof.
  destruct (mask_image_frame Example.has_geometry Example.biomed 0 1
              Example.masked 0%Z false 0%Z None None Example.start)
    as (Hother & Htable & Hid).
  split; [|split].
  - apply (Hother 0). discriminate.
  - exact Htable.
  - exact Hid.
Defined.

Lemma mask_image_columns_agree_witness :
  Example.encoded_run.1 = Return ()
  ∧ ∃ columns stmt args op dropped,
      requests (issued Example.start Example.encoded_run.2) =
        [ altertable {| name := "masks" |} columns;
          execdirect (fstring (join_sql_encoded "masks" "scans"));
          processbiomedimages args; dropTable dropped ]
      ∧ map rename columns = columns_from "a" stmt
      ∧ operation_columns op = columns_from "a" stmt
      ∧ length columns = 1.
Proof.
  split; [exact Witness.encoded_run_returns|].
  destruct (mask_image_columns_agree Example.has_geometry Example.biomed 0 2
              Example.masked 0%Z false 0%Z None None Example.start
              Witness.encoded_run_returns)
    as (columns & stmt & args & op & dropped & Hlog & _ & _ & _ & Hcols & Hop
        & Hlen & _).
  exists columns, stmt, args, op, dropped.
  split; [exact Hlog|]. split; [exact Hcols|]. split; [exact Hop|exact Hlen].
Defined.

Lemma mask_image_same_object_witness :
  Scenario.same_object_run.1 = Return ()
  ∧ In (Remote (execdirect (fstring (join_sql_decoded "masks" "masks"))) None)
       (issued Example.start Scenario.same_object_run.2)
  ∧ image (heap Scenario.same_object_run.2 1) = Some "seg"%string.
Proof.
  assert (Scenario.same_object_run.1 = Return ()) as Hres
    by (vm_compute; reflexivity).
  split; [exact Hres|].
  destruct (mask_image_same_object Example.has_geometry Example.biomed 1
              Example.masked 0%Z false 0%Z None None Example.start Hres)
    as (stmt & j & Hin & _ & _ & _ & _ & _ & Hheap).
  split; [exact Hin|]. exact (f_equal image Hheap).
Defined.
